(** * Image preprocessing pipeline of the Telegram OCR bot

    Shallow embedding of [src/bots/img_processing.py] (the orientation
    corrector [rotate_image_to_center], the enhancement pipeline
    [process_image_for_ocr] and the orchestrator
    [download_and_preprocess_image]), of [handle_photo] in
    [src/bots/cv_with_processing.py] and of [handle_photo] in
    [src/bots/echo_img.py].

    The Python functions are translated statement by statement into a state
    and exception monad over an explicit world (clock, network, file
    system, bot messages).  OpenCV's pixel computations are not code of this
    repository: they are the fields of the class [OpenCV] below, and the
    [cv2_*] wrappers add what the Python bindings do around them (argument
    checks, the shape of the result). *)

From Stdlib Require Import String Ascii List ZArith QArith Qreals Lia Bool.
From Stdlib Require Import Permutation Sorted Reals Lqa Lra.
Import ListNotations.

Local Close Scope Q_scope.
Local Open Scope string_scope.
Local Open Scope list_scope.

(** ** Python values, exceptions and results *)

(** An 8-bit image as numpy holds it: [shape = (rows, cols, channels)]
    (a grayscale image has one channel and [shape = (rows, cols)]). *)
Record image := mkImage {
  rows : nat;
  cols : nat;
  channels : nat;
  data : list Byte.byte
}.

(** The exceptions the embedded code can meet.  [cv2_error fn] is the
    exception with which the OpenCV binding of [fn] refuses its arguments
    ([cv2.error]; for an argument of the wrong type some versions raise a
    [TypeError] instead, which the handlers of the source do not tell
    apart). *)
Inductive exn :=
| cv2_error (fn : string)
| AttributeError (attr : string)
| ConnectionError (url : string).

Inductive result (A : Type) :=
| Ok (a : A)
| Raise (e : exn).
Arguments Ok {A} a.
Arguments Raise {A} e.

(** What the variable [img] of [process_image_for_ocr] can be bound to:
    the function rebinds it to a CLAHE operator at its stage 4. *)
Inductive pyval :=
| PNone
| ndarray (m : image)
| CLAHE (clipLimit : Q) (tileGridSize : nat * nat).

(** ** Angles

    An angle in radians is kept exactly, as its coefficient of pi/180:
    [Rad q] is the angle q * pi / 180.  Floating-point rounding is not
    modelled. *)
Record radians := Rad { per_pi_180 : Q }.

Definition rad2R (t : radians) : R := (Q2R (per_pi_180 t) * PI / 180)%R.

(** [np.pi / 180] *)
Definition np_pi_180 : radians := Rad 1%Q.

(** [np.degrees]: radians to degrees, the factor 180/pi. *)
Definition np_degrees (t : radians) : Q := per_pi_180 t.

(** A LineCandidate, one row [line[0] = (rho, theta)] of [cv2.HoughLines]. *)
Record line := mkLine { rho : Q; theta : radians }.

(** ** [np.median]

    The array is sorted; an odd count gives the middle element, an even
    count the mean of the two middle elements. *)
Fixpoint insert_sorted (x : Q) (l : list Q) : list Q :=
  match l with
  | [] => [x]
  | y :: l' => if Qle_bool x y then x :: l else y :: insert_sorted x l'
  end.

Fixpoint np_sort (l : list Q) : list Q :=
  match l with
  | [] => []
  | x :: l' => insert_sorted x (np_sort l')
  end.

(** [np.median] of an empty array is nan, which [Q] lacks; the case is
    unreachable below ([cv2_HoughLines] gives [None] rather than an empty
    array) and is given 0. *)
Definition np_median (a : list Q) : Q :=
  let s := np_sort a in
  let n := length s in
  if Nat.even n
  then ((nth (n / 2 - 1) s 0 + nth (n / 2) s 0) / 2)%Q
  else nth (n / 2) s 0%Q.

(** [np.mean], used only to tell the median from it. *)
Definition np_mean (a : list Q) : Q :=
  (fold_right Qplus 0 a / inject_Z (Z.of_nat (length a)))%Q.

(** ** Affine maps

    [cv2.getRotationMatrix2D(center, angle, scale)] as OpenCV documents it:
    with alpha = scale * cos angle and beta = scale * sin angle (angle in
    degrees) the 2x3 matrix
      [ alpha  beta  (1 - alpha) * cx - beta * cy ]
      [ -beta  alpha beta * cx + (1 - alpha) * cy ]. *)
Record affine := mkAffine {
  m00 : R; m01 : R; m02 : R;
  m10 : R; m11 : R; m12 : R
}.

Definition deg2R (angle : Q) : R := (Q2R angle * PI / 180)%R.

Definition cv2_getRotationMatrix2D (center : nat * nat) (angle : Q) (scale : R)
  : affine :=
  let cx := INR (fst center) in
  let cy := INR (snd center) in
  let alpha := (scale * cos (deg2R angle))%R in
  let beta := (scale * sin (deg2R angle))%R in
  {| m00 := alpha; m01 := beta; m02 := ((1 - alpha) * cx - beta * cy)%R;
     m10 := (- beta)%R; m11 := alpha; m12 := (beta * cx + (1 - alpha) * cy)%R |}.

(** The point an affine map sends (x, y) to. *)
Definition affine_apply (m : affine) (p : R * R) : R * R :=
  ((m00 m * fst p + m01 m * snd p + m02 m)%R,
   (m10 m * fst p + m11 m * snd p + m12 m)%R).

(** The rotation of the plane by [phi] radians about [c], in pixel
    coordinates (x to the right, y downwards). *)
Definition rotate_about (c : R * R) (phi : R) (p : R * R) : R * R :=
  ((fst c + (cos phi * (fst p - fst c) - sin phi * (snd p - snd c)))%R,
   (snd c + (sin phi * (fst p - fst c) + cos phi * (snd p - snd c)))%R).

(** ** OpenCV

    Flags of the calls the source makes. *)
Inductive color_code := COLOR_BGR2GRAY.
Inductive interpolation := INTER_NEAREST | INTER_LINEAR | INTER_CUBIC.
Inductive border_mode := BORDER_CONSTANT | BORDER_REPLICATE.
Inductive thresh_type := THRESH_BINARY_OTSU.

(** The pixel computations of OpenCV, each giving the pixel data of its
    result (the wrappers below give the result its shape).  They are
    functions: on arguments of the right type an OpenCV call succeeds, and
    gives the same result each time; the failures modelled are those of
    the argument checks in the wrappers. *)
Class OpenCV := {
  imdecode_bgr : list Byte.byte -> option (nat * nat * list Byte.byte);
  png_bytes : image -> list Byte.byte;
  bgr2gray : image -> list Byte.byte;
  canny : image -> Z -> Z -> nat -> list Byte.byte;
  hough_lines : image -> Q -> radians -> Z -> list line;
  warp_affine :
    image -> affine -> nat * nat -> interpolation -> border_mode -> list Byte.byte;
  equalize_hist : image -> list Byte.byte;
  threshold_otsu : image -> Z -> Z -> list Byte.byte;
  nl_means_denoise : image -> list Byte.byte;
  clahe : Q -> nat * nat -> image -> list Byte.byte;
  filter_2d : image -> list (list Z) -> list Byte.byte;
  dilate : image -> list (list Z) -> nat -> list Byte.byte;
  gaussian_blur : image -> nat * nat -> Q -> list Byte.byte
}.

(** ** Monads: exceptions, and state with exceptions *)

Class Monad (m : Type -> Type) := {
  ret : forall {A : Type}, A -> m A;
  bind : forall {A B : Type}, m A -> (A -> m B) -> m B
}.

Declare Scope py_scope.
Delimit Scope py_scope with py.
Notation "x <- c ;; k" := (bind c (fun x => k))
  (at level 61, c at next level, right associativity) : py_scope.
Notation "' pat <- c ;; k" := (bind c (fun x => match x with pat => k end))
  (at level 61, pat pattern, c at next level, right associativity) : py_scope.
Notation "c ;; k" := (bind c (fun _ => k))
  (at level 61, right associativity) : py_scope.
Local Open Scope py_scope.

#[export] Instance result_monad : Monad result := {
  ret := fun A a => Ok a;
  bind := fun A B c k => match c with Ok a => k a | Raise e => Raise e end
}.

(** ** The world: clock, network, file system, bot messages *)

(** [datetime.now()]. *)
Record datetime := mkDatetime {
  year : Z; month : Z; day : Z;
  hour : Z; minute : Z; second : Z;
  microsecond : Z
}.

(** A file path, kept as [os.path.join] builds it: directory and name. *)
Record path := mkPath { parent : string; base : string }.

Definition path_str (p : path) : string := parent p ++ "/" ++ base p.

(** [files] is the log of the files written, newest first: a file written
    twice is read back from its newest entry.  Directories and regular
    files are kept apart: a name in [dirs] is a directory. *)
Record world := mkWorld {
  now : datetime;
  http : string -> option (list Byte.byte);
  dirs : list string;
  files : list (path * list Byte.byte);
  messages : list string;
  errors : list string
}.

Definition M (A : Type) : Type := world -> result A * world.

#[export] Instance M_monad : Monad M := {
  ret := fun A a w => (Ok a, w);
  bind := fun A B c k w =>
    match c w with
    | (Ok a, w') => k a w'
    | (Raise e, w') => (Raise e, w')
    end
}.

(** A pure computation run inside [M]. *)
Definition lift {A : Type} (r : result A) : M A := fun w => (r, w).

Definition path_eqb (p q : path) : bool :=
  String.eqb (parent p) (parent q) && String.eqb (base p) (base q).

Fixpoint lookup_file (p : path) (l : list (path * list Byte.byte))
  : option (list Byte.byte) :=
  match l with
  | [] => None
  | (q, c) :: l' => if path_eqb p q then Some c else lookup_file p l'
  end.

(** The newest content written under a path. *)
Definition read_back (p : path) (w : world) : option (list Byte.byte) :=
  lookup_file p (files w).

Definition mem_string (s : string) (l : list string) : bool :=
  existsb (String.eqb s) l.

(** [os.path.exists] of a directory name. *)
Definition os_path_exists (p : string) : M bool :=
  fun w => (Ok (mem_string p (dirs w)), w).

Definition os_makedirs (p : string) : M unit :=
  fun w => (Ok tt,
            mkWorld (now w) (http w) (p :: dirs w) (files w) (messages w) (errors w)).

(** [os.path.join(output_dir, name)] for a relative [name]: the file
    [name] of the directory [output_dir]. *)
Definition os_path_join (d name : string) : path := mkPath d name.

Definition datetime_now : M datetime := fun w => (Ok (now w), w).

(** [requests.get(url).content]; a failed connection raises. *)
Definition requests_get (url : string) : M (list Byte.byte) :=
  fun w => match http w url with
           | Some content => (Ok content, w)
           | None => (Raise (ConnectionError url), w)
           end.

(** ** [strftime]

    The directives the source uses: [%Y] is the year in four digits, [%m],
    [%d], [%H], [%M] and [%S] are two digits each, zero padded; any other
    character of the format is copied. *)

Definition digit (d : Z) : ascii := ascii_of_nat (48 + Z.to_nat d).

(** The [width] low decimal digits of [n]: the zero-padded decimal of [n]
    when [n < 10 ^ width]. *)
Fixpoint zpad (width : nat) (n : Z) : string :=
  match width with
  | O => EmptyString
  | S w => zpad w (n / 10)%Z ++ String (digit (n mod 10)%Z) EmptyString
  end.

Definition directive (dt : datetime) (c : ascii) : string :=
  if Ascii.eqb c "Y" then zpad 4 (year dt)
  else if Ascii.eqb c "m" then zpad 2 (month dt)
  else if Ascii.eqb c "d" then zpad 2 (day dt)
  else if Ascii.eqb c "H" then zpad 2 (hour dt)
  else if Ascii.eqb c "M" then zpad 2 (minute dt)
  else if Ascii.eqb c "S" then zpad 2 (second dt)
  else String "%" (String c EmptyString).

Fixpoint strftime (dt : datetime) (fmt : string) : string :=
  match fmt with
  | EmptyString => EmptyString
  | String c rest =>
      if Ascii.eqb c "%" then
        match rest with
        | EmptyString => String c EmptyString
        | String d rest' => directive dt d ++ strftime dt rest'
        end
      else String c (strftime dt rest)
  end.

(** The fields [datetime.now()] can have. *)
Definition valid_datetime (dt : datetime) : Prop :=
  (1 <= year dt <= 9999 /\ 1 <= month dt <= 12 /\ 1 <= day dt <= 31 /\
   0 <= hour dt <= 23 /\ 0 <= minute dt <= 59 /\ 0 <= second dt <= 59 /\
   0 <= microsecond dt <= 999999)%Z.

(** ** The OpenCV calls of the source *)

Section Pipeline.

Context {cv : OpenCV}.

(** [cv2.cvtColor(src, cv2.COLOR_BGR2GRAY)]: the source must have 3 or 4
    channels; the result has one. *)
Definition cv2_cvtColor (src : pyval) (code : color_code) : result pyval :=
  match src with
  | ndarray m =>
      if (channels m =? 3)%nat || (channels m =? 4)%nat
      then Ok (ndarray (mkImage (rows m) (cols m) 1 (bgr2gray m)))
      else Raise (cv2_error "cvtColor")
  | _ => Raise (cv2_error "cvtColor")
  end.

(** [cv2.Canny(image, threshold1, threshold2, apertureSize=...)]: a
    single-channel edge map of the size of the image. *)
Definition cv2_Canny (src : pyval) (threshold1 threshold2 : Z)
  (apertureSize : nat) : result pyval :=
  match src with
  | ndarray m =>
      Ok (ndarray (mkImage (rows m) (cols m) 1
                     (canny m threshold1 threshold2 apertureSize)))
  | _ => Raise (cv2_error "Canny")
  end.

(** [cv2.HoughLines(image, rho, theta, threshold)]: the Python binding
    gives [None] when no line reaches the threshold. *)
Definition cv2_HoughLines (src : pyval) (rho_res : Q) (theta_res : radians)
  (threshold : Z) : result (option (list line)) :=
  match src with
  | ndarray m =>
      if (channels m =? 1)%nat
      then match hough_lines m rho_res theta_res threshold with
           | [] => Ok None
           | l :: ls => Ok (Some (l :: ls))
           end
      else Raise (cv2_error "HoughLines")
  | _ => Raise (cv2_error "HoughLines")
  end.

(** [img.shape[:2]] *)
Definition shape2 (v : pyval) : result (nat * nat) :=
  match v with
  | ndarray m => Ok (rows m, cols m)
  | _ => Raise (AttributeError "shape")
  end.

(** [cv2.warpAffine(src, M, dsize, flags=..., borderMode=...)]: the result
    has the size [dsize = (width, height)] and the type of the source.
    Without [WARP_INVERSE_MAP], as here, [M] is the forward map: the pixel
    of the source at p is moved to [affine_apply M p]. *)
Definition cv2_warpAffine (src : pyval) (M : affine) (dsize : nat * nat)
  (flags : interpolation) (borderMode : border_mode) : result pyval :=
  match src with
  | ndarray m =>
      Ok (ndarray (mkImage (snd dsize) (fst dsize) (channels m)
                     (warp_affine m M dsize flags borderMode)))
  | _ => Raise (cv2_error "warpAffine")
  end.

(** [cv2.equalizeHist(src)]: 8-bit single-channel source. *)
Definition cv2_equalizeHist (src : pyval) : result pyval :=
  match src with
  | ndarray m =>
      if (channels m =? 1)%nat
      then Ok (ndarray (mkImage (rows m) (cols m) 1 (equalize_hist m)))
      else Raise (cv2_error "equalizeHist")
  | _ => Raise (cv2_error "equalizeHist")
  end.

(** [cv2.threshold(src, thresh, maxval, THRESH_BINARY + THRESH_OTSU)[1]]:
    Otsu's method takes an 8-bit single-channel source. *)
Definition cv2_threshold (src : pyval) (thresh maxval : Z) (type : thresh_type)
  : result pyval :=
  match src with
  | ndarray m =>
      if (channels m =? 1)%nat
      then Ok (ndarray (mkImage (rows m) (cols m) 1
                          (threshold_otsu m thresh maxval)))
      else Raise (cv2_error "threshold")
  | _ => Raise (cv2_error "threshold")
  end.

(** [cv2.fastNlMeansDenoising(src)] *)
Definition cv2_fastNlMeansDenoising (src : pyval) : result pyval :=
  match src with
  | ndarray m =>
      Ok (ndarray (mkImage (rows m) (cols m) (channels m) (nl_means_denoise m)))
  | _ => Raise (cv2_error "fastNlMeansDenoising")
  end.

(** [cv2.createCLAHE(clipLimit=..., tileGridSize=...)] *)
Definition cv2_createCLAHE (clipLimit : Q) (tileGridSize : nat * nat) : pyval :=
  CLAHE clipLimit tileGridSize.

(** The method call [self.apply(src)].  Only a CLAHE operator has the
    method, and its argument must be a single-channel array. *)
Definition method_apply (self src : pyval) : result pyval :=
  match self with
  | CLAHE clipLimit tileGridSize =>
      match src with
      | ndarray m =>
          if (channels m =? 1)%nat
          then Ok (ndarray (mkImage (rows m) (cols m) 1
                              (clahe clipLimit tileGridSize m)))
          else Raise (cv2_error "apply")
      | _ => Raise (cv2_error "apply")
      end
  | _ => Raise (AttributeError "apply")
  end.

(** [cv2.filter2D(src, -1, kernel)] *)
Definition cv2_filter2D (src : pyval) (ddepth : Z) (kernel : list (list Z))
  : result pyval :=
  match src with
  | ndarray m =>
      Ok (ndarray (mkImage (rows m) (cols m) (channels m) (filter_2d m kernel)))
  | _ => Raise (cv2_error "filter2D")
  end.

(** [cv2.dilate(src, kernel, iterations=...)] *)
Definition cv2_dilate (src : pyval) (kernel : list (list Z)) (iterations : nat)
  : result pyval :=
  match src with
  | ndarray m =>
      Ok (ndarray (mkImage (rows m) (cols m) (channels m)
                     (dilate m kernel iterations)))
  | _ => Raise (cv2_error "dilate")
  end.

(** [cv2.GaussianBlur(src, ksize, sigmaX)] *)
Definition cv2_GaussianBlur (src : pyval) (ksize : nat * nat) (sigmaX : Q)
  : result pyval :=
  match src with
  | ndarray m =>
      Ok (ndarray (mkImage (rows m) (cols m) (channels m)
                     (gaussian_blur m ksize sigmaX)))
  | _ => Raise (cv2_error "GaussianBlur")
  end.

(** [cv2.imdecode(buf, cv2.IMREAD_COLOR)]: an empty buffer is refused,
    bytes that are no image give [None], an image is given as 3-channel
    BGR. *)
Definition cv2_imdecode (buf : list Byte.byte) : result pyval :=
  match buf with
  | [] => Raise (cv2_error "imdecode")
  | _ =>
      match imdecode_bgr buf with
      | Some (r, c, d) => Ok (ndarray (mkImage r c 3 d))
      | None => Ok PNone
      end
  end.

(** [cv2.imencode('.png', img)[1].tobytes()] *)
Definition cv2_imencode_png (img : pyval) : result (list Byte.byte) :=
  match img with
  | ndarray m => Ok (png_bytes m)
  | _ => Raise (cv2_error "imencode")
  end.

(** [cv2.imwrite(filename, img)]: what is not an image is refused with an
    exception; an image is written when the directory exists, and the call
    returns whether it was. *)
Definition cv2_imwrite (filename : path) (img : pyval) : M bool :=
  fun w =>
    match img with
    | ndarray m =>
        if mem_string (parent filename) (dirs w)
        then (Ok true,
              mkWorld (now w) (http w) (dirs w)
                ((filename, png_bytes m) :: files w) (messages w) (errors w))
        else (Ok false, w)
    | _ => (Raise (cv2_error "imwrite"), w)
    end.

(** ** [img_processing.py] *)

Definition ensure_output_dir : M string :=
  let output_dir := "processed_images" in
  present <- os_path_exists output_dir ;;
  (if negb present then os_makedirs output_dir else ret tt) ;;
  ret output_dir.

(** The loop [for line in lines: ... angles.append(angle)]. *)
Definition line_angles (lines : list line) : list Q :=
  fold_left
    (fun angles line =>
       let theta := theta line in
       let angle := (np_degrees theta - 90)%Q in
       angles ++ [angle])
    lines [].

Definition rotate_image_to_center (img : pyval) : result pyval :=
  gray <- cv2_cvtColor img COLOR_BGR2GRAY ;;
  edges <- cv2_Canny gray 50 150 3 ;;
  lines <- cv2_HoughLines edges 1%Q np_pi_180 200 ;;
  match lines with
  | Some lines =>
      let angles := line_angles lines in
      let median_angle := np_median angles in
      ' (h, w) <- shape2 img ;;
      let center := ((w / 2)%nat, (h / 2)%nat) in
      let rotation_matrix := cv2_getRotationMatrix2D center median_angle 1%R in
      rotated <- cv2_warpAffine img rotation_matrix (w, h)
                   INTER_CUBIC BORDER_REPLICATE ;;
      ret rotated
  | None => ret img
  end.

(** [np.ones((r, c), np.uint8)] *)
Definition np_ones (r c : nat) : list (list Z) := repeat (repeat 1%Z c) r.

Definition process_image_for_ocr (img : pyval) (output_dir timestamp : string)
  : M pyval :=
  img <- lift (rotate_image_to_center img) ;;
  img <- lift (cv2_cvtColor img COLOR_BGR2GRAY) ;;
  cv2_imwrite (os_path_join output_dir (timestamp ++ "_1_gray.png")) img ;;
  img <- lift (cv2_equalizeHist img) ;;
  cv2_imwrite (os_path_join output_dir (timestamp ++ "_21_threshold.png")) img ;;
  img <- lift (cv2_threshold img 0 255 THRESH_BINARY_OTSU) ;;
  cv2_imwrite (os_path_join output_dir (timestamp ++ "_2_threshold.png")) img ;;
  img <- lift (cv2_fastNlMeansDenoising img) ;;
  cv2_imwrite (os_path_join output_dir (timestamp ++ "_3_denoised.png")) img ;;
  let img := cv2_createCLAHE 2%Q (8, 8)%nat in
  enhanced <- lift (method_apply img img) ;;
  cv2_imwrite (os_path_join output_dir (timestamp ++ "_4_enhanced.png")) img ;;
  let kernel := [[-1; -1; -1]; [-1; 9; -1]; [-1; -1; -1]]%Z in
  sharpened <- lift (cv2_filter2D enhanced (-1) kernel) ;;
  cv2_imwrite (os_path_join output_dir (timestamp ++ "_5_sharpened.png"))
    sharpened ;;
  let kernel := np_ones 2 2 in
  dilated <- lift (cv2_dilate sharpened kernel 1) ;;
  cv2_imwrite (os_path_join output_dir (timestamp ++ "_6_dilated.png")) dilated ;;
  final <- lift (cv2_GaussianBlur dilated (3, 3)%nat 0%Q) ;;
  cv2_imwrite (os_path_join output_dir (timestamp ++ "_7_final.png")) final ;;
  ret enhanced.

Definition download_and_preprocess_image (image_url : string)
  : M (list Byte.byte) :=
  output_dir <- ensure_output_dir ;;
  current <- datetime_now ;;
  let timestamp := strftime current "%Y%m%d_%H%M%S" in
  content <- requests_get image_url ;;
  let img_array := content in
  original_img <- lift (cv2_imdecode img_array) ;;
  let original_path := os_path_join output_dir (timestamp ++ "_original.png") in
  cv2_imwrite original_path original_img ;;
  processed <- process_image_for_ocr original_img output_dir timestamp ;;
  encoded_img <- lift (cv2_imencode_png processed) ;;
  ret encoded_img.

(** ** [cv_with_processing.py]: the requests to the OCR service *)

(** The request made to the OCR service: [read_in_stream(processed_image)]
    or [read(photo_url)]. *)
Inductive ocr_call :=
| read_in_stream (image : list Byte.byte)
| read (url : string).

(** [str(e)] *)
Definition str (e : exn) : string :=
  match e with
  | cv2_error fn => "OpenCV error in function '" ++ fn ++ "'"
  | AttributeError attr => "object has no attribute '" ++ attr ++ "'"
  | ConnectionError url => "connection failed: " ++ url
  end.

(** The image the orientation corrector returns for a colour image, in
    closed form (see [rotate_image_to_center_color]). *)
Definition rotated_image (img : image) : image :=
  let gray := mkImage (rows img) (cols img) 1 (bgr2gray img) in
  let edges := mkImage (rows img) (cols img) 1 (canny gray 50 150 3) in
  match hough_lines edges 1%Q np_pi_180 200 with
  | [] => img
  | l :: ls =>
      let median_angle := np_median (line_angles (l :: ls)) in
      let center := ((cols img / 2)%nat, (rows img / 2)%nat) in
      let rotation_matrix := cv2_getRotationMatrix2D center median_angle 1%R in
      mkImage (rows img) (cols img) (channels img)
        (warp_affine img rotation_matrix (cols img, rows img)
           INTER_CUBIC BORDER_REPLICATE)
  end.

(** The images of the stages that [process_image_for_ocr] completes on a
    colour image, in closed form (see [process_image_for_ocr_run]). *)
Definition gray_stage (img : image) : image :=
  let r := rotated_image img in
  mkImage (rows r) (cols r) 1 (bgr2gray r).

Definition equalized_stage (img : image) : image :=
  let g := gray_stage img in
  mkImage (rows g) (cols g) 1 (equalize_hist g).

Definition binary_stage (img : image) : image :=
  let e := equalized_stage img in
  mkImage (rows e) (cols e) 1 (threshold_otsu e 0 255).

Definition denoised_stage (img : image) : image :=
  let b := binary_stage img in
  mkImage (rows b) (cols b) (channels b) (nl_means_denoise b).

(** The artifacts of those stages, by label, newest first. *)
Definition stage_artifacts (img : image) : list (string * list Byte.byte) :=
  [("3_denoised", png_bytes (denoised_stage img));
   ("2_threshold", png_bytes (binary_stage img));
   ("21_threshold", png_bytes (equalized_stage img));
   ("1_gray", png_bytes (gray_stage img))].

(** The artifacts a run writes for the fetched bytes [content], by label,
    newest first, in closed form (see [download_and_preprocess_image_run]). *)
Definition run_artifacts (content : list Byte.byte)
  : list (string * list Byte.byte) :=
  match cv2_imdecode content with
  | Ok (ndarray original) =>
      stage_artifacts original ++ [("original", png_bytes original)]
  | _ => []
  end.

End Pipeline.

(** ** Artifact names *)

(** The file of the artifact [label] of the run stamped [timestamp]. *)
Definition artifact_path (output_dir timestamp label : string) : path :=
  os_path_join output_dir (timestamp ++ "_" ++ label ++ ".png").

Definition named (output_dir timestamp : string)
  (artifacts : list (string * list Byte.byte)) : list (path * list Byte.byte) :=
  map (fun a => (artifact_path output_dir timestamp (fst a), snd a)) artifacts.

(** The stage labels of the specification. *)
Definition stage_labels : list string :=
  ["original"; "1_gray"; "21_threshold"; "2_threshold"; "3_denoised";
   "4_enhanced"; "5_sharpened"; "6_dilated"; "7_final"].

(** ** Reading a timestamp back *)

Fixpoint parse_dec_from (acc : Z) (s : string) : Z :=
  match s with
  | EmptyString => acc
  | String c rest =>
      parse_dec_from (10 * acc + (Z.of_nat (nat_of_ascii c) - 48))%Z rest
  end.

(** The number a string of decimal digits writes. *)
Definition parse_dec (s : string) : Z := parse_dec_from 0 s.

(** Year, month, day, hour, minute and second of a timestamp
    YYYYMMDD_HHMMSS. *)
Definition timestamp_fields (s : string) : Z * Z * Z * Z * Z * Z :=
  (parse_dec (substring 0 4 s), parse_dec (substring 4 2 s),
   parse_dec (substring 6 2 s), parse_dec (substring 9 2 s),
   parse_dec (substring 11 2 s), parse_dec (substring 13 2 s)).

Definition is_digit (c : ascii) : bool :=
  (48 <=? nat_of_ascii c)%nat && (nat_of_ascii c <=? 57)%nat.

Fixpoint all_digits (s : string) : bool :=
  match s with
  | EmptyString => true
  | String c rest => is_digit c && all_digits rest
  end.

(** ** World updates *)

Definition add_files (fs : list (path * list Byte.byte)) (w : world) : world :=
  mkWorld (now w) (http w) (dirs w) (fs ++ files w) (messages w) (errors w).

(** The world once [ensure_output_dir] has run. *)
Definition with_output_dir (w : world) : world :=
  if mem_string "processed_images" (dirs w) then w
  else mkWorld (now w) (http w) ("processed_images" :: dirs w) (files w)
         (messages w) (errors w).

Definition add_messages (ms : list string) (w : world) : world :=
  mkWorld (now w) (http w) (dirs w) (files w) (ms ++ messages w) (errors w).

Definition add_errors (es : list string) (w : world) : world :=
  mkWorld (now w) (http w) (dirs w) (files w) (messages w) (es ++ errors w).

(** The world in which [handle_photo] calls the orchestrator, when Telegram
    has taken the first two texts: two messages shown, the output directory
    in place. *)
Definition before_preprocessing (w : world) : world :=
  with_output_dir
    (add_messages
       ["🖼️ Preprocessing image to enhance text recognition...";
        "🔍 Receiving your image..."] w).

(** The world after the [except] around the call of the orchestrator in
    [handle_photo] has dealt with [e], when Telegram has taken its text:
    the error logged, the text shown. *)
Definition after_fallback (e : exn) (w : world) : world :=
  add_messages ["⚠️ Error in preprocessing, trying with original image..."]
    (add_errors [("Preprocessing error: " ++ str e)%string] w).

(** ** A small OpenCV to run the embedding on concrete inputs

    [sample_cv found]: a buffer that starts with the byte 0x89 (the first
    byte of a PNG file) decodes to a 1x1 image of its next three bytes, any
    other buffer is no image; the line detector finds [found]; the filters
    leave the pixel data as it is. *)
Definition sample_cv (found : list line) : OpenCV := {|
  imdecode_bgr := fun buf =>
    match buf with
    | Byte.x89 :: px => Some (1%nat, 1%nat, firstn 3 px)
    | _ => None
    end;
  png_bytes := fun m => Byte.x89 :: data m;
  bgr2gray := fun m => firstn (rows m * cols m) (data m);
  canny := fun m _ _ _ => data m;
  hough_lines := fun _ _ _ _ => found;
  warp_affine := fun m _ _ _ _ => data m;
  equalize_hist := fun m => data m;
  threshold_otsu := fun m _ _ => data m;
  nl_means_denoise := fun m => data m;
  clahe := fun _ _ m => data m;
  filter_2d := fun m _ => data m;
  dilate := fun m _ _ => data m;
  gaussian_blur := fun m _ _ => data m
|}.

(** A 1x1 colour image, a 1x1 grayscale image, and encoded buffers. *)
Definition bgr_pixel : image := mkImage 1 1 3 [Byte.x10; Byte.x20; Byte.x30].
Definition gray_pixel : image := mkImage 1 1 1 [Byte.x7f].
Definition png_buffer : list Byte.byte := [Byte.x89; Byte.x10; Byte.x20; Byte.x30].
Definition junk_buffer : list Byte.byte := [Byte.x00; Byte.x01].

Definition sample_time : datetime := mkDatetime 2024 3 9 14 5 7 123456.

Definition photo_url : string := "https://t.me/file/photo.jpg".
Definition junk_url : string := "https://t.me/file/junk.bin".

Definition sample_world : world :=
  mkWorld sample_time
    (fun url => if String.eqb url photo_url then Some png_buffer
                else if String.eqb url junk_url then Some junk_buffer
                else None)
    [] [] [] [].

(** ** Lines in the image plane

    A point (x, y) is on the Hough line (rho, theta) when
    x * cos theta + y * sin theta = rho. *)
Definition on_line (c : line) (p : R * R) : Prop :=
  (fst p * cos (rad2R (theta c)) + snd p * sin (rad2R (theta c)) = Q2R (rho c))%R.

(** The normalized angle of a candidate, [np.degrees(theta) - 90]. *)
Definition normalized_angle (c : line) : Q := (np_degrees (theta c) - 90)%Q.

(** How many elements of an array are at most, and at least, a value. *)
Definition count_le (v : Q) (a : list Q) : nat :=
  length (filter (fun x => Qle_bool x v) a).

Definition count_ge (v : Q) (a : list Q) : nat :=
  length (filter (fun x => Qle_bool v x) a).

(** Detected lines at the angles 1, 2, 3 and 88 degrees, and detected lines
    whose normalized angles are 1, 2, 3 and 88 degrees. *)
Definition lines_at_1_2_3_88 : list line :=
  [mkLine 40 (Rad 1); mkLine 41 (Rad 2); mkLine 42 (Rad 3); mkLine 43 (Rad 88)].

Definition lines_normalized_1_2_3_88 : list line :=
  [mkLine 40 (Rad 91); mkLine 41 (Rad 92); mkLine 42 (Rad 93); mkLine 43 (Rad 178)].

(** A second world: another clock, a file already on disk, the same
    photograph under another address. *)
Definition other_url : string := "https://t.me/file/copy.jpg".

Definition other_world : world :=
  mkWorld (mkDatetime 2025 12 31 23 59 58 0)
    (fun url => if String.eqb url other_url then Some png_buffer else None)
    ["processed_images"]
    [(mkPath "processed_images" "20240309_140507_7_final.png", [Byte.x00])]
    [] [].

(** How many elements of an array are below a value. *)
Definition count_lt (v : Q) (a : list Q) : nat :=
  length (filter (fun x => negb (Qle_bool v x)) a).

(** Two readings of the clock within the same second. *)
Definition same_second (d1 d2 : datetime) : Prop :=
  year d1 = year d2 /\ month d1 = month d2 /\ day d1 = day d2 /\
  hour d1 = hour d2 /\ minute d1 = minute d2 /\ second d1 = second d2.

(** A later reading of the sample clock, in the same second. *)
Definition sample_time_later : datetime := mkDatetime 2024 3 9 14 5 7 987654.

(** The sample world one run later, within the same second: the files of
    the first run are on disk and another photograph is fetched. *)
Definition later_buffer : list Byte.byte := [Byte.x89; Byte.x01; Byte.x02; Byte.x03].

Definition later_url : string := "https://t.me/file/second.jpg".

Definition sample_world_later : world :=
  mkWorld sample_time_later
    (fun url => if String.eqb url later_url then Some later_buffer else None)
    ["processed_images"]
    (files (snd (download_and_preprocess_image (cv := sample_cv [])
                   photo_url sample_world)))
    [] [].

(** The squared distance of two points. *)
Definition dist2 (p q : R * R) : R :=
  ((fst p - fst q) * (fst p - fst q) + (snd p - snd q) * (snd p - snd q))%R.

(** * The bots: [handle_photo] of the OCR bot and of the echo bot

    [cv_with_processing.py] and [echo_img.py] talk to Telegram and to the
    Azure OCR service.  What those services answer is not code of this
    repository: it is the class [Services].  The handlers are embedded in
    a second monad, over the world of the pipeline and the state of the
    conversation, with a third outcome for a loop that is still running
    when the fuel of the model is used up. *)

(** The answer to [get_read_result]: its status, and the text of the lines
    of each page of [analyze_result.read_results]. *)
Record read_result := mkReadResult {
  status : string;
  pages : list (list string)
}.

Class Services := {
  (** [context.bot.get_file(file_id).file_path]; [None]: the call raises *)
  file_path : string -> option string;
  (** whether Telegram refuses a reply, an edit of the status message or a
      photograph, given the texts shown so far *)
  reply_refused : list string -> string -> bool;
  edit_refused : list string -> string -> bool;
  photo_refused : list string -> string -> bool;
  (** the Operation-Location of the answer to [read] or [read_in_stream];
      [None]: the client raises or the header cannot be read *)
  operation_location : ocr_call -> option string;
  (** the answer to the n-th [get_read_result] for an operation; [None]:
      the client raises *)
  read_answer : string -> nat -> option read_result
}.

Inductive bot_exn :=
| PipelineError (e : exn)
| IndexError
| UnboundLocalError (name : string)
| TelegramError (text : string)
| AzureError.

Inductive outcome (A : Type) :=
| Done (a : A)
| Failed (e : bot_exn)
| Running.
Arguments Done {A} a.
Arguments Failed {A} e.
Arguments Running {A}.

(** The conversation: the world of the pipeline (its [messages] are the
    texts shown to the user, its [errors] the error log), whether
    [processing_message] is bound, the photographs sent back, the requests
    made to the OCR service, the other logs, and how often the handler has
    polled and slept. *)
Record bot := mkBot {
  host : world;
  bound : bool;
  sent_photos : list (string * string);
  ocr_calls : list ocr_call;
  debug_log : list string;
  info_log : list string;
  polls : nat;
  slept : nat
}.

Definition B (A : Type) : Type := bot -> outcome A * bot.

#[export] Instance B_monad : Monad B := {
  ret := fun A a b => (Done a, b);
  bind := fun A B c k b =>
    match c b with
    | (Done a, b') => k a b'
    | (Failed e, b') => (Failed e, b')
    | (Running, b') => (Running, b')
    end
}.

Definition fail {A : Type} (e : bot_exn) : B A := fun b => (Failed e, b).

(** [try: c except Exception as e: h e] *)
Definition try_b {A : Type} (c : B A) (h : bot_exn -> B A) : B A :=
  fun b =>
    match c b with
    | (Failed e, b') => h e b'
    | r => r
    end.

Definition set_host (w : world) (b : bot) : bot :=
  mkBot w (bound b) (sent_photos b) (ocr_calls b) (debug_log b) (info_log b)
    (polls b) (slept b).

(** A computation of the pipeline, run in the world of the bot. *)
Definition in_world {A : Type} (m : M A) : B A :=
  fun b =>
    match m (host b) with
    | (Ok a, w) => (Done a, set_host w b)
    | (Raise e, w) => (Failed (PipelineError e), set_host w b)
    end.

(** [str(e)] *)
Definition bot_str (e : bot_exn) : string :=
  match e with
  | PipelineError e => str e
  | IndexError => "list index out of range"
  | UnboundLocalError name =>
      "local variable '" ++ name ++ "' referenced before assignment"
  | TelegramError text => "Telegram refused the message"
  | AzureError => "the OCR service failed"
  end.

(** [s * n] *)
Fixpoint repeat_string (s : string) (n : nat) : string :=
  match n with
  | O => EmptyString
  | S n' => s ++ repeat_string s n'
  end.

(** The newline. *)
Definition nl : string := String (ascii_of_nat 10) EmptyString.

(** [sep.join(l)] *)
Fixpoint join (sep : string) (l : list string) : string :=
  match l with
  | [] => EmptyString
  | [x] => x
  | x :: rest => x ++ sep ++ join sep rest
  end.

(** [s.split(sep)] for a separator of one character. *)
Fixpoint split_on (sep : ascii) (s : string) : list string :=
  match s with
  | EmptyString => [EmptyString]
  | String c rest =>
      if Ascii.eqb c sep then EmptyString :: split_on sep rest
      else match split_on sep rest with
           | [] => [String c EmptyString]
           | piece :: pieces => String c piece :: pieces
           end
  end.

(** [l[-1]] *)
Definition item_last {A : Type} (l : list A) : B A :=
  match rev l with
  | [] => fail IndexError
  | x :: _ => ret x
  end.

(** Whether a character occurs in a string. *)
Fixpoint occurs (c : ascii) (s : string) : bool :=
  match s with
  | EmptyString => false
  | String d rest => Ascii.eqb d c || occurs c rest
  end.

Section Bot.

Context {cv : OpenCV} {sv : Services}.

(** [await update.message.reply_text(s)] *)
Definition reply_text (s : string) : B unit :=
  fun b =>
    if reply_refused (messages (host b)) s
    then (Failed (TelegramError s), b)
    else (Done tt, set_host (add_messages [s] (host b)) b).

(** [processing_message = await update.message.reply_text(s)] *)
Definition reply_status (s : string) : B unit :=
  fun b =>
    if reply_refused (messages (host b)) s
    then (Failed (TelegramError s), b)
    else (Done tt,
          mkBot (add_messages [s] (host b)) true (sent_photos b) (ocr_calls b)
            (debug_log b) (info_log b) (polls b) (slept b)).

(** [await processing_message.edit_text(s)] *)
Definition status_edit_text (s : string) : B unit :=
  fun b =>
    if negb (bound b)
    then (Failed (UnboundLocalError "processing_message"), b)
    else if edit_refused (messages (host b)) s
    then (Failed (TelegramError s), b)
    else (Done tt, set_host (add_messages [s] (host b)) b).

(** [await update.message.reply_photo(photo=file_id, caption=caption)] *)
Definition reply_photo (file_id caption : string) : B unit :=
  fun b =>
    if photo_refused (messages (host b)) file_id
    then (Failed (TelegramError caption), b)
    else (Done tt,
          mkBot (host b) (bound b) ((file_id, caption) :: sent_photos b)
            (ocr_calls b) (debug_log b) (info_log b) (polls b) (slept b)).

Definition get_file (file_id : string) : B string :=
  match file_path file_id with
  | Some url => ret url
  | None => fail (TelegramError file_id)
  end.

Definition log_error (s : string) : B unit :=
  fun b => (Done tt, set_host (add_errors [s] (host b)) b).

Definition log_debug (s : string) : B unit :=
  fun b => (Done tt,
            mkBot (host b) (bound b) (sent_photos b) (ocr_calls b)
              (s :: debug_log b) (info_log b) (polls b) (slept b)).

Definition log_info (s : string) : B unit :=
  fun b => (Done tt,
            mkBot (host b) (bound b) (sent_photos b) (ocr_calls b)
              (debug_log b) (s :: info_log b) (polls b) (slept b)).

(** [time.sleep(1)] *)
Definition time_sleep (seconds : nat) : B unit :=
  fun b => (Done tt,
            mkBot (host b) (bound b) (sent_photos b) (ocr_calls b)
              (debug_log b) (info_log b) (polls b) (seconds + slept b)).

(** [computervision_client.read_in_stream(...)] and [.read(...)], followed
    by [read_response.headers["Operation-Location"]]. *)
Definition azure_read (call : ocr_call) : B string :=
  fun b =>
    let b' := mkBot (host b) (bound b) (sent_photos b) (call :: ocr_calls b)
                (debug_log b) (info_log b) (polls b) (slept b) in
    match operation_location call with
    | Some location => (Done location, b')
    | None => (Failed AzureError, b')
    end.

(** [computervision_client.get_read_result(operation_id)] *)
Definition get_read_result (operation_id : string) : B read_result :=
  fun b =>
    let b' := mkBot (host b) (bound b) (sent_photos b) (ocr_calls b)
                (debug_log b) (info_log b) (S (polls b)) (slept b) in
    match read_answer operation_id (polls b) with
    | Some r => (Done r, b')
    | None => (Failed AzureError, b')
    end.

(** [read_operation_location.split("/")[-1]] *)
Definition operation_id_of (read_operation_location : string) : B string :=
  item_last (split_on "/" read_operation_location).

(** [f"🔎 Analyzing your image{'.' * dots}"] *)
Definition waiting_message (dots : nat) : string :=
  "🔎 Analyzing your image" ++ repeat_string "." dots.

(** The loop [while True: ...] of [handle_photo]; [dots] is the value of
    the variable when an iteration starts.  The source loop has no bound:
    the model is [Running] when its fuel is used up before the loop ends. *)
Fixpoint poll (fuel : nat) (operation_id : string) (dots : nat)
  : B read_result :=
  match fuel with
  | O => fun b => (Running, b)
  | S fuel' =>
      read_result <- get_read_result operation_id ;;
      if negb (mem_string (status read_result) ["notStarted"; "running"])
      then ret read_result
      else
        let dots := (dots mod 3 + 1)%nat in
        let waiting_message := waiting_message dots in
        try_b (status_edit_text waiting_message)
          (fun e =>
             log_debug ("Message edit failed (expected): " ++ bot_str e)) ;;
        time_sleep 1 ;;
        poll fuel' operation_id dots
  end.

(** The two loops that collect [line.text] over the pages and their
    lines. *)
Definition text_results (r : read_result) : list string :=
  fold_left
    (fun text_results text_result =>
       fold_left (fun text_results line => text_results ++ [line])
         text_result text_results)
    (pages r) [].

(** The end of [handle_photo]: what is shown for a finished operation. *)
Definition report (r : read_result) : B unit :=
  if String.eqb (status r) "succeeded" then
    let text_results := text_results r in
    match text_results with
    | _ :: _ =>
        let extracted_text := join nl text_results in
        status_edit_text
          ("✨ Here's the extracted text:" ++ nl ++ nl ++ extracted_text) ;;
        log_info "Successfully extracted text from image"
    | [] =>
        status_edit_text
          "❌ No text was found in the image. Please try with another image that contains clear handwritten text!"
    end
  else
    status_edit_text
      "❌ Sorry, I couldn't process the text in this image. Please try with another image!".

(** [handle_photo] of [cv_with_processing.py]; [photo] is
    [update.message.photo], the file ids of the sizes of the photograph. *)
Definition handle_photo_cv (fuel : nat) (photo : list string) : B unit :=
  try_b
    (reply_status "🔍 Receiving your image..." ;;
     photo <- item_last photo ;;
     photo_url <- get_file photo ;;
     status_edit_text "🖼️ Preprocessing image to enhance text recognition..." ;;
     output_dir <- in_world ensure_output_dir ;;
     processed_image <-
       try_b
         (processed_image <- in_world (download_and_preprocess_image photo_url) ;;
          status_edit_text
            ("📥 Image enhanced! Images saved in '" ++ output_dir
             ++ "' folder. Sending to Azure...") ;;
          ret (Some processed_image))
         (fun e =>
            log_error ("Preprocessing error: " ++ bot_str e) ;;
            status_edit_text
              "⚠️ Error in preprocessing, trying with original image..." ;;
            ret None) ;;
     read_operation_location <-
       match processed_image with
       | Some image => azure_read (read_in_stream image)
       | None => azure_read (read photo_url)
       end ;;
     operation_id <- operation_id_of read_operation_location ;;
     status_edit_text "🔎 Azure is analyzing the text..." ;;
     read_result <- poll fuel operation_id 1 ;;
     report read_result)
    (fun e =>
       log_error ("Error processing image: " ++ bot_str e) ;;
       try_b
         (status_edit_text
            "❌ Sorry, an error occurred while processing your image. Please try again!")
         (fun _ =>
            reply_text
              "❌ Sorry, an error occurred while processing your image. Please try again!")).

(** [handle_photo] of [echo_img.py]. *)
Definition handle_photo_echo (photo : list string) : B unit :=
  photo <- item_last photo ;;
  log_info ("Received photo with file_id: " ++ photo) ;;
  try_b
    (reply_photo photo "Here's your image back! 📸" ;;
     log_info "Successfully sent photo back")
    (fun e =>
       log_error ("Error sending photo: " ++ bot_str e) ;;
       reply_text "Sorry, I couldn't process your image!").

(** Two parts of [handle_photo_cv], named for the proofs: the statements
    from the call of the OCR service to the end of the [try] block, and the
    handler of the outer [except] (see [handle_photo_cv_parts]). *)
Definition recognize (fuel : nat) (photo_url : string)
  (processed_image : option (list Byte.byte)) : B unit :=
  read_operation_location <-
    match processed_image with
    | Some image => azure_read (read_in_stream image)
    | None => azure_read (read photo_url)
    end ;;
  operation_id <- operation_id_of read_operation_location ;;
  status_edit_text "🔎 Azure is analyzing the text..." ;;
  read_result <- poll fuel operation_id 1 ;;
  report read_result.

Definition on_error (e : bot_exn) : B unit :=
  log_error ("Error processing image: " ++ bot_str e) ;;
  try_b
    (status_edit_text
       "❌ Sorry, an error occurred while processing your image. Please try again!")
    (fun _ =>
       reply_text
         "❌ Sorry, an error occurred while processing your image. Please try again!").

(** The statements of [handle_photo_cv] before the call of the OCR
    service. *)
Definition prepare (photo : list string)
  : B (string * option (list Byte.byte)) :=
  reply_status "🔍 Receiving your image..." ;;
  photo <- item_last photo ;;
  photo_url <- get_file photo ;;
  status_edit_text "🖼️ Preprocessing image to enhance text recognition..." ;;
  output_dir <- in_world ensure_output_dir ;;
  processed_image <-
    try_b
      (processed_image <- in_world (download_and_preprocess_image photo_url) ;;
       status_edit_text
         ("📥 Image enhanced! Images saved in '" ++ output_dir
          ++ "' folder. Sending to Azure...") ;;
       ret (Some processed_image))
      (fun e =>
         log_error ("Preprocessing error: " ++ bot_str e) ;;
         status_edit_text
           "⚠️ Error in preprocessing, trying with original image..." ;;
         ret None) ;;
  ret (photo_url, processed_image).

End Bot.

(** An answer after which [handle_photo] polls again. *)
Definition still_waiting (r : read_result) : bool :=
  mem_string (status r) ["notStarted"; "running"].

(** The final texts of [handle_photo]. *)
Definition text_error : string :=
  "❌ Sorry, an error occurred while processing your image. Please try again!".

Definition text_no_text : string :=
  "❌ No text was found in the image. Please try with another image that contains clear handwritten text!".

Definition text_not_processed : string :=
  "❌ Sorry, I couldn't process the text in this image. Please try with another image!".

(** What polling leaves alone: everything but the texts shown, the debug
    log and the counters of polls and sleeps. *)
Definition kept_by_polling (b : bot) :=
  (bound b, sent_photos b, ocr_calls b, info_log b,
   (now (host b), dirs (host b), files (host b), errors (host b))).

(** The text [report] shows for a finished operation. *)
Definition final_text (r : read_result) : string :=
  if String.eqb (status r) "succeeded" then
    match concat (pages r) with
    | [] => text_no_text
    | lines => "✨ Here's the extracted text:" ++ nl ++ nl ++ join nl lines
    end
  else text_not_processed.

(** Services for the sample world.  Telegram takes everything; the photo
    size photo-large is the sample photograph; the operation op-1 is
    running at the first two polls and has succeeded at the third. *)
Definition sample_location : string :=
  "https://westeurope.api.cognitive.microsoft.com/vision/v3.2/read/analyzeResults/op-1".

Definition sample_services : Services := {|
  file_path := fun id =>
    if String.eqb id "photo-large" then Some photo_url else None;
  reply_refused := fun _ _ => false;
  edit_refused := fun _ _ => false;
  photo_refused := fun _ _ => false;
  operation_location := fun call =>
    match call with
    | read url => if String.eqb url photo_url then Some sample_location else None
    | read_in_stream _ => None
    end;
  read_answer := fun op n =>
    if String.eqb op "op-1" then
      if (n <? 2)%nat then Some (mkReadResult "running" [])
      else Some (mkReadResult "succeeded" [["Hello"; "world"]; []; ["42"]])
    else None
|}.

(** Services of a Telegram that refuses photographs and refuses to edit a
    message to the text it already shows. *)
Definition strict_services : Services := {|
  file_path := fun id => Some photo_url;
  reply_refused := fun _ _ => false;
  edit_refused := fun shown s =>
    match shown with
    | newest :: _ => String.eqb newest s
    | [] => false
    end;
  photo_refused := fun _ _ => true;
  operation_location := fun _ => None;
  read_answer := fun _ _ => None
|}.

(** The waiting texts of [k] rounds of polling that start with [dots],
    newest first. *)
Definition waiting_texts (dots k : nat) : list string :=
  rev (map (fun i => waiting_message ((dots + i) mod 3 + 1)) (seq 0 k)).

(** Services of a Telegram that refuses every reply. *)
Definition silent_services : Services := {|
  file_path := fun id => None;
  reply_refused := fun _ _ => true;
  edit_refused := fun _ _ => true;
  photo_refused := fun _ _ => true;
  operation_location := fun _ => None;
  read_answer := fun _ _ => None
|}.

(** The part of a location after its last slash. *)
Definition last_segment (location : string) : string :=
  last (split_on "/" location) EmptyString.

(** A computation of the bot that leaves a component of the conversation
    as it found it, whatever its outcome. *)
Definition keeps {A X : Type} (proj : bot -> X) (c : B A) : Prop :=
  forall b : bot, proj (snd (c b)) = proj b.

(** The requests made to the OCR service and the photographs sent. *)
Definition calls_and_photos (b : bot) : list ocr_call * list (string * string) :=
  (ocr_calls b, sent_photos b).

(** Services of an OCR service that is down, behind a Telegram that takes
    everything. *)
Definition offline_services : Services := {|
  file_path := fun id => Some photo_url;
  reply_refused := fun _ _ => false;
  edit_refused := fun _ _ => false;
  photo_refused := fun _ _ => false;
  operation_location := fun _ => None;
  read_answer := fun _ _ => None
|}.

(** Services of an operation that never finishes. *)
Definition stalled_services : Services := {|
  file_path := fun id => Some photo_url;
  reply_refused := fun _ _ => false;
  edit_refused := fun _ _ => false;
  photo_refused := fun _ _ => false;
  operation_location := fun _ => Some sample_location;
  read_answer := fun _ _ => Some (mkReadResult "running" [])
|}.


(** A conversation that starts in a world. *)
Definition new_bot (w : world) : bot := mkBot w false [] [] [] [] 0 0.

(** * Properties *)

Lemma add_files_nil w : add_files [] w = w.
Proof. destruct w; reflexivity. Qed.

Lemma ensure_output_dir_run w :
  ensure_output_dir w = (Ok "processed_images", with_output_dir w).
Proof.
  unfold ensure_output_dir, with_output_dir, os_path_exists, os_makedirs; cbn.
  destruct (mem_string "processed_images" (dirs w)); reflexivity.
Qed.

Lemma with_output_dir_dirs w :
  mem_string "processed_images" (dirs (with_output_dir w)) = true.
Proof.
  unfold with_output_dir.
  destruct (mem_string "processed_images" (dirs w)) eqn:E; [exact E | reflexivity].
Qed.

Lemma with_output_dir_files w : files (with_output_dir w) = files w.
Proof. unfold with_output_dir; destruct (mem_string _ _); reflexivity. Qed.

Lemma with_output_dir_now w : now (with_output_dir w) = now w.
Proof. unfold with_output_dir; destruct (mem_string _ _); reflexivity. Qed.

Lemma with_output_dir_http w : http (with_output_dir w) = http w.
Proof. unfold with_output_dir; destruct (mem_string _ _); reflexivity. Qed.

Section PipelineFacts.

Context {cv : OpenCV}.

Lemma imwrite_image (p : path) (m : image) (w : world) :
  mem_string (parent p) (dirs w) = true ->
  cv2_imwrite p (ndarray m) w = (Ok true, add_files [(p, png_bytes m)] w).
Proof. intros Hd; unfold cv2_imwrite; rewrite Hd; reflexivity. Qed.

Lemma line_angles_app (ls : list line) (acc : list Q) :
  fold_left (fun angles l => angles ++ [(np_degrees (theta l) - 90)%Q]) ls acc
  = acc ++ map (fun l => (np_degrees (theta l) - 90)%Q) ls.
Proof.
  revert acc; induction ls as [|l ls IH]; intros acc; cbn.
  - now rewrite app_nil_r.
  - rewrite IH, <- app_assoc; reflexivity.
Qed.

Lemma line_angles_map (ls : list line) :
  line_angles ls = map (fun l => (np_degrees (theta l) - 90)%Q) ls.
Proof. unfold line_angles; apply (line_angles_app ls []). Qed.

Lemma rotate_image_to_center_color (img : image) :
  (channels img = 3 \/ channels img = 4)%nat ->
  rotate_image_to_center (ndarray img) = Ok (ndarray (rotated_image img)).
Proof.
  intros Hc. unfold rotate_image_to_center, rotated_image, cv2_cvtColor.
  assert (E : ((channels img =? 3)%nat || (channels img =? 4)%nat) = true).
  { destruct Hc as [-> | ->]; reflexivity. }
  rewrite E; cbn.
  destruct (hough_lines _ _ _ _) as [|l ls]; reflexivity.
Qed.

Lemma rotated_image_shape (img : image) :
  rows (rotated_image img) = rows img /\
  cols (rotated_image img) = cols img /\
  channels (rotated_image img) = channels img.
Proof.
  unfold rotated_image.
  destruct (hough_lines _ _ _ _); cbn; repeat split; reflexivity.
Qed.

End PipelineFacts.

Section OrientationCorrector.

Context {cv : OpenCV}.

(** C3. When the line detection finds no LineCandidate ([cv2.HoughLines]
    gives [None]), [rotate_image_to_center] skips the rotation and returns
    its input unchanged, as a normal result and not as an exception. *)
Theorem rotate_identity_without_lines (img gray edges : pyval) :
  cv2_cvtColor img COLOR_BGR2GRAY = Ok gray ->
  cv2_Canny gray 50 150 3 = Ok edges ->
  cv2_HoughLines edges 1%Q np_pi_180 200 = Ok None ->
  rotate_image_to_center img = Ok img.
Proof.
  intros Hgray Hedges Hlines.
  unfold rotate_image_to_center.
  rewrite Hgray; cbn. rewrite Hedges; cbn. rewrite Hlines; reflexivity.
Qed.

(** A grayscale input never reaches the line detection: the conversion to
    grayscale refuses it. *)
Lemma rotate_rejects_other_channels (img : image) :
  (channels img <> 3)%nat -> (channels img <> 4)%nat ->
  rotate_image_to_center (ndarray img) = Raise (cv2_error "cvtColor").
Proof.
  intros H3 H4. unfold rotate_image_to_center, cv2_cvtColor.
  apply Nat.eqb_neq in H3, H4. rewrite H3, H4. reflexivity.
Qed.

(** C4 (amended). For every colour input image (3 channels, or 4 with an
    alpha channel) [rotate_image_to_center] returns an image of the same
    height, width and channel count. *)
Theorem rotate_preserves_shape_of_colour (img : image) :
  (channels img = 3 \/ channels img = 4)%nat ->
  exists out : image,
    rotate_image_to_center (ndarray img) = Ok (ndarray out) /\
    rows out = rows img /\ cols out = cols img /\ channels out = channels img.
Proof.
  intros Hc. exists (rotated_image img). split.
  - apply rotate_image_to_center_color, Hc.
  - apply rotated_image_shape.
Qed.

End OrientationCorrector.

(** C4, the claim as stated fails on a grayscale image: the 1x1
    single-channel image is refused by [cv2.cvtColor]. *)
Lemma rotate_grayscale_raises :
  channels gray_pixel = 1%nat /\
  rotate_image_to_center (cv := sample_cv []) (ndarray gray_pixel)
  = Raise (cv2_error "cvtColor").
Proof. split; reflexivity. Qed.

Lemma rotate_identity_without_lines_witness :
  rotate_image_to_center (cv := sample_cv []) (ndarray bgr_pixel)
  = Ok (ndarray bgr_pixel).
Proof.
  eapply (rotate_identity_without_lines (cv := sample_cv [])); reflexivity.
Defined.

Lemma rotate_preserves_shape_of_colour_witness :
  exists out : image,
    rotate_image_to_center (cv := sample_cv [mkLine 10 (Rad 92)])
      (ndarray bgr_pixel) = Ok (ndarray out) /\
    rows out = 1%nat /\ cols out = 1%nat /\ channels out = 3%nat.
Proof.
  apply (rotate_preserves_shape_of_colour (cv := sample_cv [mkLine 10 (Rad 92)])
           bgr_pixel).
  left; reflexivity.
Defined.

(** ** The rotation *)

Lemma Q2R_90 : Q2R 90 = 90%R.
Proof. unfold Q2R; cbn. lra. Qed.

(** [np_degrees] is the multiplication by 180/pi. *)
Lemma np_degrees_spec (t : radians) :
  Q2R (np_degrees t) = (rad2R t * 180 / PI)%R.
Proof.
  unfold np_degrees, rad2R. field. apply PI_neq0.
Qed.

Lemma deg2R_normalized (c : line) :
  deg2R (normalized_angle c) = (rad2R (theta c) - PI / 2)%R.
Proof.
  unfold deg2R, normalized_angle, rad2R, np_degrees.
  rewrite Q2R_minus, Q2R_90. field.
Qed.

Lemma cos_minus_PI2 (x : R) : cos (x - PI / 2) = sin x.
Proof. rewrite cos_minus, cos_PI2, sin_PI2. ring. Qed.

Lemma sin_minus_PI2 (x : R) : sin (x - PI / 2) = (- cos x)%R.
Proof. rewrite sin_minus, cos_PI2, sin_PI2. ring. Qed.

(** The matrix of [cv2.getRotationMatrix2D(center, angle, 1.0)] moves the
    points of the image plane by the rotation of [- angle] about [center]. *)
Lemma rotation_matrix_rotates (center : nat * nat) (angle : Q) (p : R * R) :
  affine_apply (cv2_getRotationMatrix2D center angle 1) p
  = rotate_about (INR (fst center), INR (snd center)) (- deg2R angle) p.
Proof.
  unfold affine_apply, rotate_about, cv2_getRotationMatrix2D; cbn.
  rewrite cos_neg, sin_neg. f_equal; ring.
Qed.

(** A line whose normalized angle is the angle of the rotation is sent to
    a horizontal line: its points all get the same ordinate. *)
Lemma rotation_levels_line (center : nat * nat) (angle : Q) (c : line)
  (p q : R * R) :
  (normalized_angle c == angle)%Q ->
  on_line c p -> on_line c q ->
  snd (affine_apply (cv2_getRotationMatrix2D center angle 1) p)
  = snd (affine_apply (cv2_getRotationMatrix2D center angle 1) q).
Proof.
  intros Ha Hp Hq.
  unfold affine_apply, cv2_getRotationMatrix2D, deg2R; cbn.
  rewrite <- (Qeq_eqR _ _ Ha).
  fold (deg2R (normalized_angle c)). rewrite deg2R_normalized.
  rewrite cos_minus_PI2, sin_minus_PI2.
  unfold on_line in Hp, Hq. lra.
Qed.

Section Rotation.

Context {cv : OpenCV}.

(** C5. When at least one LineCandidate is detected,
    [rotate_image_to_center] returns the original input (not its grayscale
    version) warped by the matrix of [cv2.getRotationMatrix2D] for the
    centre (w // 2, h // 2), the median normalized angle and scale 1, with
    [INTER_CUBIC], [BORDER_REPLICATE] and the size (w, h) of the input.
    That matrix moves the points of the image plane by the rotation of minus
    the median angle about the centre, and it makes horizontal every line
    whose normalized angle is the median: it cancels the measured skew. *)
Theorem rotate_by_negated_median (img : image) (gray edges : pyval)
  (lines : list line) :
  cv2_cvtColor (ndarray img) COLOR_BGR2GRAY = Ok gray ->
  cv2_Canny gray 50 150 3 = Ok edges ->
  cv2_HoughLines edges 1%Q np_pi_180 200 = Ok (Some lines) ->
  let median_angle := np_median (map normalized_angle lines) in
  let center := ((cols img / 2)%nat, (rows img / 2)%nat) in
  let rotation_matrix := cv2_getRotationMatrix2D center median_angle 1 in
  lines <> [] /\
  rotate_image_to_center (ndarray img)
  = Ok (ndarray (mkImage (rows img) (cols img) (channels img)
                   (warp_affine img rotation_matrix (cols img, rows img)
                      INTER_CUBIC BORDER_REPLICATE))) /\
  (forall p : R * R,
      affine_apply rotation_matrix p
      = rotate_about (INR (cols img / 2), INR (rows img / 2))
          (- deg2R median_angle) p) /\
  (forall (c : line) (p q : R * R),
      (normalized_angle c == median_angle)%Q ->
      on_line c p -> on_line c q ->
      snd (affine_apply rotation_matrix p) = snd (affine_apply rotation_matrix q)).
Proof.
  intros Hgray Hedges Hlines; cbv zeta.
  split; [|split; [|split]].
  - unfold cv2_HoughLines in Hlines.
    destruct edges as [|m|]; try discriminate.
    destruct (channels m =? 1)%nat; try discriminate.
    destruct (hough_lines m 1%Q np_pi_180 200); congruence.
  - unfold rotate_image_to_center.
    rewrite Hgray; cbn. rewrite Hedges; cbn. rewrite Hlines; cbn.
    rewrite line_angles_map. reflexivity.
  - intros p. apply (rotation_matrix_rotates (_, _)).
  - intros c p q. apply rotation_levels_line.
Qed.

End Rotation.

Lemma rotate_by_negated_median_witness :
  rotate_image_to_center (cv := sample_cv [mkLine 10 (Rad 92)]) (ndarray bgr_pixel)
  = Ok (ndarray (mkImage 1 1 3 (data bgr_pixel))).
Proof.
  refine (proj1 (proj2
    (rotate_by_negated_median (cv := sample_cv [mkLine 10 (Rad 92)])
       bgr_pixel
       (ndarray (mkImage 1 1 1 [Byte.x10]))
       (ndarray (mkImage 1 1 1 [Byte.x10]))
       [mkLine 10 (Rad 92)] _ _ _))); reflexivity.
Defined.

(** ** The median *)

Lemma insert_sorted_perm (x : Q) (l : list Q) :
  Permutation (x :: l) (insert_sorted x l).
Proof.
  induction l as [|y l IH]; cbn.
  - apply Permutation_refl.
  - destruct (Qle_bool x y).
    + apply Permutation_refl.
    + eapply perm_trans; [apply perm_swap | apply perm_skip, IH].
Qed.

Lemma np_sort_perm (l : list Q) : Permutation l (np_sort l).
Proof.
  induction l as [|x l IH]; cbn.
  - constructor.
  - eapply perm_trans; [apply perm_skip, IH | apply insert_sorted_perm].
Qed.

Lemma np_sort_length (l : list Q) : length (np_sort l) = length l.
Proof. symmetry; apply Permutation_length, np_sort_perm. Qed.

Lemma Qle_bool_false (x y : Q) : Qle_bool x y = false -> (y <= x)%Q.
Proof.
  intros H. apply Qlt_le_weak, Qnot_le_lt. intros Hle.
  apply Qle_bool_iff in Hle. congruence.
Qed.

Lemma insert_sorted_sorted (x : Q) (l : list Q) :
  StronglySorted Qle l -> StronglySorted Qle (insert_sorted x l).
Proof.
  induction 1 as [|y l Hs IH Hall]; cbn.
  - repeat constructor.
  - destruct (Qle_bool x y) eqn:E.
    + apply Qle_bool_iff in E. constructor.
      * constructor; assumption.
      * constructor; [exact E|].
        eapply Forall_impl; [|exact Hall].
        intros z Hz. eapply Qle_trans; eassumption.
    + apply Qle_bool_false in E. constructor; [exact IH|].
      eapply Permutation_Forall; [apply insert_sorted_perm|].
      constructor; assumption.
Qed.

Lemma np_sort_sorted (l : list Q) : StronglySorted Qle (np_sort l).
Proof.
  induction l as [|x l IH]; cbn.
  - constructor.
  - apply insert_sorted_sorted, IH.
Qed.

(** In a sorted array the element of index [k] is at least the elements up
    to it and at most the elements from it on. *)
Lemma sorted_prefix (s : list Q) (k : nat) :
  StronglySorted Qle s -> (k < length s)%nat ->
  Forall (fun x => (x <= nth k s 0)%Q) (firstn (S k) s).
Proof.
  intros Hs; revert k; induction Hs as [|y l Hs IH Hall]; intros k Hk.
  - cbn in Hk; lia.
  - destruct k as [|k].
    + cbn. constructor; [apply Qle_refl | constructor].
    + cbn in Hk. change (firstn (S (S k)) (y :: l)) with (y :: firstn (S k) l).
      change (nth (S k) (y :: l) 0%Q) with (nth k l 0%Q).
      constructor; [|apply IH; lia].
      rewrite Forall_forall in Hall. apply Hall, nth_In; lia.
Qed.

Lemma sorted_suffix (s : list Q) (k : nat) :
  StronglySorted Qle s -> (k < length s)%nat ->
  Forall (fun x => (nth k s 0 <= x)%Q) (skipn k s).
Proof.
  intros Hs; revert k; induction Hs as [|y l Hs IH Hall]; intros k Hk.
  - cbn in Hk; lia.
  - destruct k as [|k].
    + cbn. constructor; [apply Qle_refl | exact Hall].
    + cbn in Hk. cbn. apply IH; lia.
Qed.

Lemma filter_all {A : Type} (f : A -> bool) (l : list A) :
  Forall (fun x => f x = true) l -> filter f l = l.
Proof.
  induction 1 as [|x l Hx _ IH]; cbn; [reflexivity|].
  rewrite Hx, IH; reflexivity.
Qed.

Lemma filter_length_perm {A : Type} (f : A -> bool) (l l' : list A) :
  Permutation l l' -> length (filter f l) = length (filter f l').
Proof.
  induction 1 as [|x l l' _ IH|x y l|l l' l'' _ IH1 _ IH2]; cbn.
  - reflexivity.
  - destruct (f x); cbn; congruence.
  - destruct (f x), (f y); reflexivity.
  - congruence.
Qed.

Lemma count_le_sorted (s : list Q) (k : nat) (v : Q) :
  StronglySorted Qle s -> (k < length s)%nat -> (nth k s 0 <= v)%Q ->
  (S k <= count_le v s)%nat.
Proof.
  intros Hs Hk Hv. unfold count_le.
  rewrite <- (firstn_skipn (S k) s) at 1.
  rewrite filter_app, length_app, filter_all.
  - rewrite length_firstn. lia.
  - eapply Forall_impl; [|apply sorted_prefix; eassumption].
    intros x Hx; cbn in Hx. apply Qle_bool_iff. eapply Qle_trans; eassumption.
Qed.

Lemma count_ge_sorted (s : list Q) (k : nat) (v : Q) :
  StronglySorted Qle s -> (k < length s)%nat -> (v <= nth k s 0)%Q ->
  (length s - k <= count_ge v s)%nat.
Proof.
  intros Hs Hk Hv. unfold count_ge.
  rewrite <- (firstn_skipn k s) at 2.
  rewrite filter_app, length_app, (filter_all _ (skipn k s)).
  - rewrite length_skipn. lia.
  - eapply Forall_impl; [|apply sorted_suffix; eassumption].
    intros x Hx; cbn in Hx. apply Qle_bool_iff. eapply Qle_trans; eassumption.
Qed.

Lemma sorted_nth_le (s : list Q) (i j : nat) :
  StronglySorted Qle s -> (i <= j)%nat -> (j < length s)%nat ->
  (nth i s 0 <= nth j s 0)%Q.
Proof.
  intros Hs Hij Hj.
  pose proof (sorted_prefix s j Hs Hj) as HF.
  rewrite Forall_forall in HF. apply HF.
  rewrite <- (firstn_skipn (S j) s) at 1.
  rewrite app_nth1 by (rewrite length_firstn; lia).
  apply nth_In. rewrite length_firstn; lia.
Qed.

(** [np.median] is a median: at least half of the array is at most it and
    at least half of the array is at least it. *)
Lemma np_median_halves (a : list Q) :
  a <> [] ->
  (length a <= 2 * count_le (np_median a) a)%nat /\
  (length a <= 2 * count_ge (np_median a) a)%nat.
Proof.
  intros Hne.
  assert (Hlen : (0 < length a)%nat) by (destruct a; [congruence | cbn; lia]).
  pose proof (np_sort_sorted a) as Hs.
  pose proof (np_sort_length a) as Hl.
  unfold count_le, count_ge.
  rewrite (filter_length_perm _ _ _ (np_sort_perm a)).
  rewrite (filter_length_perm (fun x => Qle_bool (np_median a) x) _ _ (np_sort_perm a)).
  fold (count_le (np_median a) (np_sort a)).
  fold (count_ge (np_median a) (np_sort a)).
  unfold np_median. rewrite Hl.
  set (s := np_sort a) in *. set (n := length a) in *.
  destruct (Nat.even n) eqn:Ev.
  - apply Nat.even_spec in Ev. destruct Ev as [h Hh].
    assert (Hdiv : (n / 2 = h)%nat).
    { rewrite Hh, Nat.mul_comm. apply Nat.div_mul. discriminate. }
    rewrite Hdiv.
    assert (Hab : (nth (h - 1) s 0 <= nth h s 0)%Q)
      by (apply sorted_nth_le; [exact Hs | lia | lia]).
    set (lo := nth (h - 1) s 0%Q) in *. set (hi := nth h s 0%Q) in *.
    assert (Hlo : (lo <= (lo + hi) / 2)%Q).
    { apply Qle_shift_div_l; [reflexivity|]. Lqa.lra. }
    assert (Hhi : ((lo + hi) / 2 <= hi)%Q).
    { apply Qle_shift_div_r; [reflexivity|]. Lqa.lra. }
    split.
    + pose proof (count_le_sorted s (h - 1) _ Hs ltac:(lia) Hlo). lia.
    + pose proof (count_ge_sorted s h _ Hs ltac:(lia) Hhi). lia.
  - assert (Od : Nat.odd n = true) by (rewrite <- Nat.negb_even, Ev; reflexivity).
    apply Nat.odd_spec in Od. destruct Od as [h Hh].
    assert (Hdiv : (n / 2 = h)%nat).
    { symmetry. apply (Nat.div_unique n 2 h 1); [repeat constructor | exact Hh]. }
    rewrite Hdiv. split.
    + pose proof (count_le_sorted s h _ Hs ltac:(lia) (Qle_refl _)). lia.
    + pose proof (count_ge_sorted s h _ Hs ltac:(lia) (Qle_refl _)). lia.
Qed.

Section SkewAngle.

Context {cv : OpenCV}.

Lemma rotate_image_to_center_lines (img : image) (gray edges : pyval)
  (lines : list line) :
  cv2_cvtColor (ndarray img) COLOR_BGR2GRAY = Ok gray ->
  cv2_Canny gray 50 150 3 = Ok edges ->
  cv2_HoughLines edges 1%Q np_pi_180 200 = Ok (Some lines) ->
  rotate_image_to_center (ndarray img)
  = Ok (ndarray (mkImage (rows img) (cols img) (channels img)
                   (warp_affine img
                      (cv2_getRotationMatrix2D
                         ((cols img / 2)%nat, (rows img / 2)%nat)
                         (np_median (line_angles lines)) 1)
                      (cols img, rows img) INTER_CUBIC BORDER_REPLICATE))).
Proof.
  intros Hgray Hedges Hlines. unfold rotate_image_to_center.
  rewrite Hgray; cbn. rewrite Hedges; cbn. rewrite Hlines; reflexivity.
Qed.

Lemma HoughLines_some_nonempty (edges : pyval) (lines : list line) :
  cv2_HoughLines edges 1%Q np_pi_180 200 = Ok (Some lines) -> lines <> [].
Proof.
  unfold cv2_HoughLines. destruct edges as [|m|]; try discriminate.
  destruct (channels m =? 1)%nat; try discriminate.
  destruct (hough_lines m 1%Q np_pi_180 200); congruence.
Qed.

(** C6 (amended). The angle of the rotation is [np.median] of the
    normalized angles [np.degrees(theta) - 90] of the detected candidates.
    It is a median: at least half of the normalized angles are at most it
    and at least half are at least it.  For an even number of candidates
    it is the mean of the two middle values: for candidates whose
    normalized angles are 1, 2, 3 and 88 degrees it is 5/2 (their mean is
    47/2), and for candidates detected at 1, 2, 3 and 88 degrees it is
    -175/2. *)
Theorem skew_angle_is_median (img : image) (gray edges : pyval)
  (lines : list line) :
  cv2_cvtColor (ndarray img) COLOR_BGR2GRAY = Ok gray ->
  cv2_Canny gray 50 150 3 = Ok edges ->
  cv2_HoughLines edges 1%Q np_pi_180 200 = Ok (Some lines) ->
  let angles := map normalized_angle lines in
  let median_angle := np_median angles in
  line_angles lines = angles /\
  rotate_image_to_center (ndarray img)
  = Ok (ndarray (mkImage (rows img) (cols img) (channels img)
                   (warp_affine img
                      (cv2_getRotationMatrix2D
                         ((cols img / 2)%nat, (rows img / 2)%nat) median_angle 1)
                      (cols img, rows img) INTER_CUBIC BORDER_REPLICATE))) /\
  (length angles <= 2 * count_le median_angle angles)%nat /\
  (length angles <= 2 * count_ge median_angle angles)%nat /\
  (np_median (line_angles lines_normalized_1_2_3_88) == 5 # 2)%Q /\
  (np_mean (line_angles lines_normalized_1_2_3_88) == 47 # 2)%Q /\
  (np_median (line_angles lines_at_1_2_3_88) == - (175 # 2))%Q.
Proof.
  intros Hgray Hedges Hlines; cbv zeta.
  split; [apply line_angles_map|].
  split.
  { rewrite (rotate_image_to_center_lines img gray edges lines Hgray Hedges Hlines).
    rewrite line_angles_map. reflexivity. }
  assert (Hne : map normalized_angle lines <> []).
  { pose proof (HoughLines_some_nonempty edges lines Hlines).
    destruct lines; [congruence | discriminate]. }
  destruct (np_median_halves _ Hne) as [Hle Hge].
  repeat split; try assumption; vm_compute; reflexivity.
Qed.

End SkewAngle.

(** C6, the claim as stated fails on its own example: the median of the
    normalized angles 1, 2, 3, 88 is 5/2 and not 2; nor is the angle 2 when
    the four lines are detected at 1, 2, 3 and 88 degrees. *)
Lemma median_of_1_2_3_88_is_not_2 :
  map normalized_angle lines_normalized_1_2_3_88 = [1; 2; 3; 88]%Q /\
  ~ (np_median (line_angles lines_normalized_1_2_3_88) == 2)%Q /\
  ~ (np_median (line_angles lines_at_1_2_3_88) == 2)%Q.
Proof.
  split; [|split].
  - vm_compute. reflexivity.
  - intros H; vm_compute in H; discriminate.
  - intros H; vm_compute in H; discriminate.
Qed.

Lemma skew_angle_is_median_witness :
  (3 <= 2 * count_le (np_median (map normalized_angle
                                   [mkLine 5 (Rad 91); mkLine 6 (Rad 95);
                                    mkLine 7 (Rad 170)]))
             (map normalized_angle
                [mkLine 5 (Rad 91); mkLine 6 (Rad 95); mkLine 7 (Rad 170)]))%nat.
Proof.
  refine (proj1 (proj2 (proj2
    (skew_angle_is_median
       (cv := sample_cv [mkLine 5 (Rad 91); mkLine 6 (Rad 95); mkLine 7 (Rad 170)])
       bgr_pixel
       (ndarray (mkImage 1 1 1 [Byte.x10]))
       (ndarray (mkImage 1 1 1 [Byte.x10]))
       [mkLine 5 (Rad 91); mkLine 6 (Rad 95); mkLine 7 (Rad 170)] _ _ _))));
    reflexivity.
Defined.

(** ** The enhancement pipeline *)

Section Enhancement.

Context {cv : OpenCV}.

Lemma cvtColor_colour (m : image) :
  (channels m = 3 \/ channels m = 4)%nat ->
  cv2_cvtColor (ndarray m) COLOR_BGR2GRAY
  = Ok (ndarray (mkImage (rows m) (cols m) 1 (bgr2gray m))).
Proof.
  intros [E | E]; unfold cv2_cvtColor; rewrite E; reflexivity.
Qed.

Lemma artifact_path_parent d ts l : parent (artifact_path d ts l) = d.
Proof. reflexivity. Qed.

(** The run of the enhancement pipeline on a colour image, when the output
    directory exists: the four stages up to the denoising are written, and
    the call [img.apply(img)] raises. *)
Lemma process_image_for_ocr_run (img : image) (output_dir timestamp : string)
  (w : world) :
  (channels img = 3 \/ channels img = 4)%nat ->
  mem_string output_dir (dirs w) = true ->
  process_image_for_ocr (ndarray img) output_dir timestamp w
  = (Raise (cv2_error "apply"),
     add_files (named output_dir timestamp (stage_artifacts img)) w).
Proof.
  intros Hc Hd. unfold process_image_for_ocr.
  cbn [bind M_monad]. unfold lift.
  rewrite (rotate_image_to_center_color img Hc).
  destruct (rotated_image_shape img) as (_ & _ & Hch).
  rewrite cvtColor_colour by (rewrite Hch; exact Hc).
  rewrite imwrite_image by exact Hd.
  unfold cv2_equalizeHist, cv2_threshold, cv2_fastNlMeansDenoising; cbn [channels Nat.eqb].
  rewrite imwrite_image by exact Hd.
  rewrite imwrite_image by exact Hd.
  rewrite imwrite_image by exact Hd.
  cbn [method_apply cv2_createCLAHE].
  reflexivity.
Qed.

Lemma imwrite_image_no_dir (p : path) (m : image) (w : world) :
  mem_string (parent p) (dirs w) = false ->
  cv2_imwrite p (ndarray m) w = (Ok false, w).
Proof. intros Hd; unfold cv2_imwrite; rewrite Hd; reflexivity. Qed.

Lemma process_image_for_ocr_run_no_dir (img : image)
  (output_dir timestamp : string) (w : world) :
  (channels img = 3 \/ channels img = 4)%nat ->
  mem_string output_dir (dirs w) = false ->
  process_image_for_ocr (ndarray img) output_dir timestamp w
  = (Raise (cv2_error "apply"), w).
Proof.
  intros Hc Hd. unfold process_image_for_ocr.
  cbn [bind M_monad]. unfold lift.
  rewrite (rotate_image_to_center_color img Hc).
  destruct (rotated_image_shape img) as (_ & _ & Hch).
  rewrite cvtColor_colour by (rewrite Hch; exact Hc).
  rewrite imwrite_image_no_dir by exact Hd.
  unfold cv2_equalizeHist, cv2_threshold, cv2_fastNlMeansDenoising; cbn [channels Nat.eqb].
  rewrite imwrite_image_no_dir by exact Hd.
  rewrite imwrite_image_no_dir by exact Hd.
  rewrite imwrite_image_no_dir by exact Hd.
  reflexivity.
Qed.

(** What is not a colour image is refused by the first grayscale
    conversion, in [rotate_image_to_center]. *)
Lemma process_image_for_ocr_rejects (v : pyval) (output_dir timestamp : string)
  (w : world) :
  (forall m, v = ndarray m -> channels m <> 3 /\ channels m <> 4)%nat ->
  process_image_for_ocr v output_dir timestamp w
  = (Raise (cv2_error "cvtColor"), w).
Proof.
  intros Hv. unfold process_image_for_ocr. cbn [bind M_monad]. unfold lift.
  destruct v as [|m|c g]; try reflexivity.
  destruct (Hv m eq_refl) as [H3 H4].
  rewrite (rotate_rejects_other_channels m H3 H4). reflexivity.
Qed.

(** C2. [process_image_for_ocr] has no normal return: whatever it is given,
    in whatever world, it ends with an exception, so no image, and not the
    image of the contrast enhancement, reaches the orchestrator. *)
Theorem process_image_for_ocr_never_returns (v : pyval)
  (output_dir timestamp : string) (w : world) :
  exists (e : exn) (w' : world),
    process_image_for_ocr v output_dir timestamp w = (Raise e, w').
Proof.
  destruct v as [|m|c g].
  - eexists _, _; apply process_image_for_ocr_rejects; discriminate.
  - destruct (Nat.eq_dec (channels m) 3) as [E3|N3];
      [|destruct (Nat.eq_dec (channels m) 4) as [E4|N4]].
    + destruct (mem_string output_dir (dirs w)) eqn:Hd; eexists _, _.
      * apply process_image_for_ocr_run; [left; exact E3 | exact Hd].
      * apply process_image_for_ocr_run_no_dir; [left; exact E3 | exact Hd].
    + destruct (mem_string output_dir (dirs w)) eqn:Hd; eexists _, _.
      * apply process_image_for_ocr_run; [right; exact E4 | exact Hd].
      * apply process_image_for_ocr_run_no_dir; [right; exact E4 | exact Hd].
    + eexists _, _; apply process_image_for_ocr_rejects.
      intros m' [= <-]; split; assumption.
  - eexists _, _; apply process_image_for_ocr_rejects; discriminate.
Qed.

End Enhancement.

(** ** The orchestrator *)

Lemma add_files_app fs fs' w :
  add_files fs (add_files fs' w) = add_files (fs ++ fs') w.
Proof. unfold add_files; cbn. now rewrite app_assoc. Qed.

Section Orchestrator.

Context {cv : OpenCV}.

Lemma imdecode_channels (buf : list Byte.byte) (m : image) :
  cv2_imdecode buf = Ok (ndarray m) -> channels m = 3%nat.
Proof.
  unfold cv2_imdecode. destruct buf as [|b buf]; [discriminate|].
  destruct (imdecode_bgr (b :: buf)) as [[[r c] d]|]; [|discriminate].
  intros [= <-]. reflexivity.
Qed.

(** Every run of [download_and_preprocess_image], case by case. *)
Lemma download_and_preprocess_image_run (image_url : string) (w : world) :
  download_and_preprocess_image image_url w
  = match http w image_url with
    | None => (Raise (ConnectionError image_url), with_output_dir w)
    | Some content =>
        match cv2_imdecode content with
        | Raise e => (Raise e, with_output_dir w)
        | Ok (ndarray original) =>
            (Raise (cv2_error "apply"),
             add_files
               (named "processed_images" (strftime (now w) "%Y%m%d_%H%M%S")
                  (stage_artifacts original
                   ++ [("original", png_bytes original)]))
               (with_output_dir w))
        | Ok _ => (Raise (cv2_error "imwrite"), with_output_dir w)
        end
    end.
Proof.
  unfold download_and_preprocess_image. cbn [bind M_monad].
  rewrite ensure_output_dir_run.
  unfold datetime_now, requests_get, lift.
  rewrite with_output_dir_http, with_output_dir_now.
  destruct (http w image_url) as [content|]; [|reflexivity].
  destruct (cv2_imdecode content) as [[|original|c g]|e] eqn:Hdec;
    try reflexivity.
  pose proof (imdecode_channels _ _ Hdec) as Hc.
  rewrite imwrite_image by apply with_output_dir_dirs.
  rewrite process_image_for_ocr_run;
    [| left; exact Hc | apply with_output_dir_dirs].
  rewrite add_files_app. unfold named. rewrite map_app. reflexivity.
Qed.

End Orchestrator.

Section ContrastEnhancementFailure.

Context {cv : OpenCV}.

(** C1. On every 3-channel image, with the output directory in place,
    [process_image_for_ocr] completes the rotation, the grayscale
    conversion, the equalization, the thresholding and the denoising,
    writes the artifacts 1_gray, 21_threshold, 2_threshold and 3_denoised,
    and then raises at the contrast enhancement: [img] is by then the CLAHE
    operator, and [img.apply(img)] applies the operator to itself.  The
    function does not return and nothing is written after that.  Run from
    [download_and_preprocess_image], the files written are the artifact
    original and these four, and the exception leaves the orchestrator. *)
Theorem process_image_for_ocr_fails_at_clahe (img : image)
  (output_dir timestamp : string) (w : world) :
  channels img = 3%nat ->
  mem_string output_dir (dirs w) = true ->
  exists rotated gray equalized binary denoised : image,
    rotate_image_to_center (ndarray img) = Ok (ndarray rotated) /\
    cv2_cvtColor (ndarray rotated) COLOR_BGR2GRAY = Ok (ndarray gray) /\
    cv2_equalizeHist (ndarray gray) = Ok (ndarray equalized) /\
    cv2_threshold (ndarray equalized) 0 255 THRESH_BINARY_OTSU
    = Ok (ndarray binary) /\
    cv2_fastNlMeansDenoising (ndarray binary) = Ok (ndarray denoised) /\
    method_apply (cv2_createCLAHE 2 (8, 8)%nat) (cv2_createCLAHE 2 (8, 8)%nat)
    = Raise (cv2_error "apply") /\
    process_image_for_ocr (ndarray img) output_dir timestamp w
    = (Raise (cv2_error "apply"),
       add_files
         [(os_path_join output_dir (timestamp ++ "_3_denoised.png"),
           png_bytes denoised);
          (os_path_join output_dir (timestamp ++ "_2_threshold.png"),
           png_bytes binary);
          (os_path_join output_dir (timestamp ++ "_21_threshold.png"),
           png_bytes equalized);
          (os_path_join output_dir (timestamp ++ "_1_gray.png"),
           png_bytes gray)] w) /\
    forall (image_url : string) (content : list Byte.byte) (w0 : world),
      http w0 image_url = Some content ->
      cv2_imdecode content = Ok (ndarray img) ->
      let stamp := strftime (now w0) "%Y%m%d_%H%M%S" in
      download_and_preprocess_image image_url w0
      = (Raise (cv2_error "apply"),
         add_files
           [(os_path_join "processed_images" (stamp ++ "_3_denoised.png"),
             png_bytes denoised);
            (os_path_join "processed_images" (stamp ++ "_2_threshold.png"),
             png_bytes binary);
            (os_path_join "processed_images" (stamp ++ "_21_threshold.png"),
             png_bytes equalized);
            (os_path_join "processed_images" (stamp ++ "_1_gray.png"),
             png_bytes gray);
            (os_path_join "processed_images" (stamp ++ "_original.png"),
             png_bytes img)]
           (with_output_dir w0)).
Proof.
  intros Hc Hd.
  exists (rotated_image img), (gray_stage img), (equalized_stage img),
    (binary_stage img), (denoised_stage img).
  destruct (rotated_image_shape img) as (_ & _ & Hch).
  split; [apply rotate_image_to_center_color; left; exact Hc|].
  split; [apply cvtColor_colour; left; rewrite Hch; exact Hc|].
  repeat (split; [reflexivity|]).
  split; [apply process_image_for_ocr_run; [left; exact Hc | exact Hd]|].
  intros image_url content w0 Hget Hdec stamp.
  rewrite download_and_preprocess_image_run, Hget, Hdec. reflexivity.
Qed.

End ContrastEnhancementFailure.

Lemma process_image_for_ocr_fails_at_clahe_witness :
  fst (process_image_for_ocr (cv := sample_cv []) (ndarray bgr_pixel)
         "processed_images" "20240309_140507" (with_output_dir sample_world))
  = Raise (cv2_error "apply") /\
  fst (download_and_preprocess_image (cv := sample_cv []) photo_url sample_world)
  = Raise (cv2_error "apply").
Proof.
  destruct (process_image_for_ocr_fails_at_clahe (cv := sample_cv [])
              bgr_pixel "processed_images" "20240309_140507"
              (with_output_dir sample_world) eq_refl eq_refl)
    as (r & g & e & b & d & _ & _ & _ & _ & _ & _ & Hrun & Hdl).
  split.
  - rewrite Hrun. reflexivity.
  - rewrite (Hdl photo_url png_buffer sample_world eq_refl eq_refl). reflexivity.
Defined.

(** ** Timestamps *)

Lemma digit_value (d : Z) :
  (0 <= d <= 9)%Z -> (Z.of_nat (nat_of_ascii (digit d)) - 48 = d)%Z.
Proof.
  intros Hd. unfold digit.
  rewrite nat_ascii_embedding by lia. lia.
Qed.

Lemma digit_is_digit (d : Z) : (0 <= d <= 9)%Z -> is_digit (digit d) = true.
Proof.
  intros Hd. unfold is_digit, digit.
  rewrite nat_ascii_embedding by lia.
  apply andb_true_intro; split; apply Nat.leb_le; lia.
Qed.

Lemma strftime_layout (dt : datetime) :
  strftime dt "%Y%m%d_%H%M%S"
  = (zpad 4 (year dt) ++ zpad 2 (month dt) ++ zpad 2 (day dt) ++ "_"
     ++ zpad 2 (hour dt) ++ zpad 2 (minute dt) ++ zpad 2 (second dt))%string.
Proof. reflexivity. Qed.

Lemma strftime_length (dt : datetime) :
  String.length (strftime dt "%Y%m%d_%H%M%S") = 15%nat.
Proof. reflexivity. Qed.

Lemma mod10_digit (n : Z) : (0 <= n mod 10 <= 9)%Z.
Proof. pose proof (Z.mod_pos_bound n 10 eq_refl). lia. Qed.

#[local] Arguments digit : simpl never.
#[local] Arguments Z.mul : simpl never.
#[local] Arguments Z.add : simpl never.
#[local] Arguments Z.sub : simpl never.
#[local] Arguments Z.div : simpl never.
#[local] Arguments Z.modulo : simpl never.
#[local] Arguments Z.of_nat : simpl never.
#[local] Arguments nat_of_ascii : simpl never.

(** A timestamp is fourteen digits around an underscore. *)
Lemma strftime_digits (dt : datetime) :
  all_digits (substring 0 8 (strftime dt "%Y%m%d_%H%M%S")) = true /\
  get 8 (strftime dt "%Y%m%d_%H%M%S") = Some "_"%char /\
  all_digits (substring 9 6 (strftime dt "%Y%m%d_%H%M%S")) = true.
Proof.
  repeat split; cbn; rewrite ?digit_is_digit by apply mod10_digit; reflexivity.
Qed.

(** The timestamp has second resolution: it writes the six fields of the
    clock down to the second, and they can be read back from it. *)
Lemma strftime_fields (dt : datetime) :
  valid_datetime dt ->
  timestamp_fields (strftime dt "%Y%m%d_%H%M%S")
  = (year dt, month dt, day dt, hour dt, minute dt, second dt).
Proof.
  intros (Hy & Hm & Hd & HH & HM & HS & _).
  unfold timestamp_fields, parse_dec. cbn.
  rewrite !digit_value by apply mod10_digit.
  repeat f_equal; Z.div_mod_to_equations; lia.
Qed.

(** ** Failures, fallback, artifact names, determinism *)

Section Runs.

Context {cv : OpenCV}.

(** C7. When the fetched bytes do not decode to an image,
    [download_and_preprocess_image] fails and writes no artifact: an empty
    buffer is refused by [cv2.imdecode]; for other bytes [cv2.imdecode]
    gives [None], and writing it as the original artifact raises before
    any file exists.  Only the output directory is created. *)
Theorem malformed_bytes_fail_without_artifacts (image_url : string)
  (content : list Byte.byte) (w : world) :
  http w image_url = Some content ->
  (forall m : image, cv2_imdecode content <> Ok (ndarray m)) ->
  exists e : exn,
    download_and_preprocess_image image_url w = (Raise e, with_output_dir w) /\
    files (with_output_dir w) = files w /\
    ((content = [] /\ e = cv2_error "imdecode") \/
     (cv2_imdecode content = Ok PNone /\ e = cv2_error "imwrite")).
Proof.
  intros Hget Hbad.
  rewrite download_and_preprocess_image_run, Hget.
  destruct (cv2_imdecode content) as [[|m|c g]|e] eqn:Hdec.
  - exists (cv2_error "imwrite"). split; [reflexivity|].
    split; [apply with_output_dir_files|]. right; split; reflexivity.
  - exfalso. apply (Hbad m). reflexivity.
  - exfalso. unfold cv2_imdecode in Hdec.
    destruct content as [|b content]; [discriminate|].
    destruct (imdecode_bgr (b :: content)) as [[[r c'] d]|]; discriminate.
  - exists e. split; [reflexivity|].
    split; [apply with_output_dir_files|]. left.
    unfold cv2_imdecode in Hdec.
    destruct content as [|b content]; [split; congruence|].
    destruct (imdecode_bgr (b :: content)) as [[[r c'] d]|]; discriminate.
Qed.

(** A failure of the orientation corrector leaves the enhancement pipeline
    as it is, and a failure of the enhancement pipeline leaves the
    orchestrator as it is: neither function has a handler. *)
Lemma rotate_failure_propagates (img : pyval) (output_dir timestamp : string)
  (w : world) (e : exn) :
  rotate_image_to_center img = Raise e ->
  process_image_for_ocr img output_dir timestamp w = (Raise e, w).
Proof.
  intros Hrot. unfold process_image_for_ocr. cbn [bind M_monad].
  unfold lift. rewrite Hrot. reflexivity.
Qed.

Lemma process_failure_propagates (image_url : string)
  (content : list Byte.byte) (original : pyval) (written : bool)
  (w w1 w2 : world) (e : exn) :
  http w image_url = Some content ->
  cv2_imdecode content = Ok original ->
  cv2_imwrite
    (os_path_join "processed_images"
       (strftime (now w) "%Y%m%d_%H%M%S" ++ "_original.png"))
    original (with_output_dir w) = (Ok written, w1) ->
  process_image_for_ocr original "processed_images"
    (strftime (now w) "%Y%m%d_%H%M%S") w1 = (Raise e, w2) ->
  download_and_preprocess_image image_url w = (Raise e, w2).
Proof.
  intros Hget Hdec Hwrite Hproc.
  unfold download_and_preprocess_image. cbn [bind M_monad].
  rewrite ensure_output_dir_run.
  unfold datetime_now, requests_get, lift.
  rewrite with_output_dir_http, with_output_dir_now, Hget, Hdec, Hwrite, Hproc.
  reflexivity.
Qed.

End Runs.

Section Artifacts.

Context {cv : OpenCV}.

Lemma download_files (image_url : string) (content : list Byte.byte)
  (w : world) :
  http w image_url = Some content ->
  files (snd (download_and_preprocess_image image_url w))
  = named "processed_images" (strftime (now w) "%Y%m%d_%H%M%S")
      (run_artifacts content) ++ files w.
Proof.
  intros Hget. rewrite download_and_preprocess_image_run, Hget.
  unfold run_artifacts.
  destruct (cv2_imdecode content) as [[|original|c g]|e]; cbn [snd];
    try apply with_output_dir_files.
  unfold add_files; cbn [files]. now rewrite with_output_dir_files.
Qed.

Lemma download_files_no_content (image_url : string) (w : world) :
  http w image_url = None ->
  files (snd (download_and_preprocess_image image_url w)) = files w.
Proof.
  intros Hget. rewrite download_and_preprocess_image_run, Hget.
  apply with_output_dir_files.
Qed.

Lemma download_dirs (image_url : string) (w : world) :
  mem_string "processed_images"
    (dirs (snd (download_and_preprocess_image image_url w))) = true.
Proof.
  rewrite download_and_preprocess_image_run.
  destruct (http w image_url) as [content|];
    [destruct (cv2_imdecode content) as [[|original|c g]|e]|];
    cbn [snd add_files dirs]; apply with_output_dir_dirs.
Qed.

Lemma run_artifacts_labels (content : list Byte.byte) :
  map fst (run_artifacts content) = [] \/
  map fst (run_artifacts content)
  = ["3_denoised"; "2_threshold"; "21_threshold"; "1_gray"; "original"].
Proof.
  unfold run_artifacts.
  destruct (cv2_imdecode content) as [[|original|c g]|e]; auto.
Qed.

(** C9. Every file a run of [download_and_preprocess_image] writes is in
    the directory processed_images, which exists after the run, and is
    named {timestamp}_{stage_label}.png: the timestamp is the clock read
    once, written YYYYMMDD_HHMMSS (fourteen digits around an underscore,
    from which year, month, day, hour, minute and second are read back),
    and the label is one of the nine stage labels.  The labels that reach
    the disk are the five up to 3_denoised, or none: 4_enhanced,
    5_sharpened, 6_dilated and 7_final are never written. *)
Theorem artifacts_named_by_timestamp_and_stage (image_url : string) (w : world) :
  valid_datetime (now w) ->
  let stamp := strftime (now w) "%Y%m%d_%H%M%S" in
  let run := download_and_preprocess_image image_url w in
  exists artifacts : list (string * list Byte.byte),
    files (snd run)
    = map (fun a => (mkPath "processed_images" (stamp ++ "_" ++ fst a ++ ".png"),
                     snd a)) artifacts ++ files w /\
    Forall (fun a => In (fst a) stage_labels) artifacts /\
    (map fst artifacts = [] \/
     map fst artifacts
     = ["3_denoised"; "2_threshold"; "21_threshold"; "1_gray"; "original"]) /\
    mem_string "processed_images" (dirs (snd run)) = true /\
    String.length stamp = 15%nat /\
    all_digits (substring 0 8 stamp) = true /\
    get 8 stamp = Some "_"%char /\
    all_digits (substring 9 6 stamp) = true /\
    timestamp_fields stamp
    = (year (now w), month (now w), day (now w),
       hour (now w), minute (now w), second (now w)).
Proof.
  intros Hvalid stamp run.
  assert (Hlabels : forall content,
             Forall (fun a => In (fst a) stage_labels) (run_artifacts content)).
  { intros content. apply Forall_forall. intros a Ha.
    apply (in_map fst) in Ha.
    destruct (run_artifacts_labels content) as [E | E]; rewrite E in Ha.
    - destruct Ha.
    - unfold stage_labels. cbn in Ha |- *. intuition. }
  destruct (strftime_digits (now w)) as (Hd1 & Hus & Hd2).
  destruct (http w image_url) as [content|] eqn:Hget.
  - exists (run_artifacts content).
    split; [apply (download_files _ _ _ Hget)|].
    split; [apply Hlabels|].
    split; [apply run_artifacts_labels|].
    split; [apply download_dirs|].
    repeat split; try assumption. apply strftime_fields, Hvalid.
  - exists [].
    split; [apply (download_files_no_content _ _ Hget)|].
    split; [constructor|].
    split; [left; reflexivity|].
    split; [apply download_dirs|].
    repeat split; try assumption. apply strftime_fields, Hvalid.
Qed.

(** C10. Two runs that fetch the same bytes end the same way (the same
    exception, or the same buffer), and write the same artifacts, label by
    label and byte by byte, each under its own timestamp; whatever else the
    two worlds hold, and whatever the address of the image, does not count.
    With one clock the files written are the same. *)
Theorem pipeline_deterministic (url1 url2 : string) (content : list Byte.byte)
  (w1 w2 : world) :
  http w1 url1 = Some content ->
  http w2 url2 = Some content ->
  fst (download_and_preprocess_image url1 w1)
  = fst (download_and_preprocess_image url2 w2) /\
  (exists artifacts : list (string * list Byte.byte),
    files (snd (download_and_preprocess_image url1 w1))
    = named "processed_images" (strftime (now w1) "%Y%m%d_%H%M%S") artifacts
      ++ files w1 /\
    files (snd (download_and_preprocess_image url2 w2))
    = named "processed_images" (strftime (now w2) "%Y%m%d_%H%M%S") artifacts
      ++ files w2) /\
  (now w1 = now w2 ->
   exists written : list (path * list Byte.byte),
     files (snd (download_and_preprocess_image url1 w1)) = written ++ files w1 /\
     files (snd (download_and_preprocess_image url2 w2)) = written ++ files w2).
Proof.
  intros H1 H2. split; [|split].
  - rewrite !download_and_preprocess_image_run, H1, H2.
    destruct (cv2_imdecode content) as [[|original|c g]|e]; reflexivity.
  - exists (run_artifacts content).
    split; apply download_files; assumption.
  - intros Hclock. eexists. split.
    + apply download_files; eassumption.
    + rewrite Hclock. apply download_files; assumption.
Qed.

End Artifacts.

(** ** Runs on the sample inputs *)

Example sample_timestamp :
  strftime sample_time "%Y%m%d_%H%M%S" = "20240309_140507".
Proof. reflexivity. Qed.

(** The photograph of the sample world: the run raises at the contrast
    enhancement, with five files on disk. *)
Example sample_run :
  fst (download_and_preprocess_image (cv := sample_cv []) photo_url sample_world)
  = Raise (cv2_error "apply") /\
  map (fun f => path_str (fst f))
    (files (snd (download_and_preprocess_image (cv := sample_cv [])
                   photo_url sample_world)))
  = ["processed_images/20240309_140507_3_denoised.png";
     "processed_images/20240309_140507_2_threshold.png";
     "processed_images/20240309_140507_21_threshold.png";
     "processed_images/20240309_140507_1_gray.png";
     "processed_images/20240309_140507_original.png"] /\
  read_back (mkPath "processed_images" "20240309_140507_original.png")
    (snd (download_and_preprocess_image (cv := sample_cv [])
            photo_url sample_world))
  = Some png_buffer /\
  read_back (mkPath "processed_images" "20240309_140507_4_enhanced.png")
    (snd (download_and_preprocess_image (cv := sample_cv [])
            photo_url sample_world))
  = None.
Proof. repeat split; reflexivity. Qed.

(** The same run with a detected line: the failure is the same. *)
Example sample_run_rotated :
  fst (process_image_for_ocr (cv := sample_cv [mkLine 10 (Rad 92)])
         (ndarray bgr_pixel) "processed_images" "20240309_140507"
         (with_output_dir sample_world))
  = Raise (cv2_error "apply").
Proof. reflexivity. Qed.

Example sample_run_junk :
  download_and_preprocess_image (cv := sample_cv []) junk_url sample_world
  = (Raise (cv2_error "imwrite"), with_output_dir sample_world).
Proof. reflexivity. Qed.

Lemma malformed_bytes_fail_without_artifacts_witness :
  exists e : exn,
    download_and_preprocess_image (cv := sample_cv []) junk_url sample_world
    = (Raise e, with_output_dir sample_world) /\
    files (with_output_dir sample_world) = files sample_world /\
    ((junk_buffer = [] /\ e = cv2_error "imdecode") \/
     (cv2_imdecode (cv := sample_cv []) junk_buffer = Ok PNone /\
      e = cv2_error "imwrite")).
Proof.
  apply (malformed_bytes_fail_without_artifacts (cv := sample_cv [])
           junk_url junk_buffer sample_world).
  - reflexivity.
  - intros m; discriminate.
Defined.

Lemma sample_time_valid : valid_datetime sample_time.
Proof. unfold valid_datetime, sample_time; cbn. lia. Qed.

Lemma artifacts_named_by_timestamp_and_stage_witness :
  mem_string "processed_images"
    (dirs (snd (download_and_preprocess_image (cv := sample_cv [])
                  photo_url sample_world))) = true /\
  timestamp_fields (strftime sample_time "%Y%m%d_%H%M%S")
  = (2024, 3, 9, 14, 5, 7)%Z.
Proof.
  destruct (artifacts_named_by_timestamp_and_stage (cv := sample_cv [])
              photo_url sample_world sample_time_valid)
    as (artifacts & _ & _ & _ & Hdir & _ & _ & _ & _ & Hfields).
  split; assumption.
Defined.

Lemma pipeline_deterministic_witness :
  fst (download_and_preprocess_image (cv := sample_cv []) photo_url sample_world)
  = fst (download_and_preprocess_image (cv := sample_cv []) other_url other_world).
Proof.
  apply (proj1 (pipeline_deterministic (cv := sample_cv [])
                  photo_url other_url png_buffer sample_world other_world
                  eq_refl eq_refl)).
Defined.

(** * Further properties of the pipeline *)

(** ** The output directory *)


Section FurtherPipeline.

Context {cv : OpenCV}.

(** ** Inputs the enhancement pipeline refuses, and a missing directory *)

(** X2. Given [None] (what [cv2.imdecode] gives for bytes that are no image)
    or an image that has neither 3 nor 4 channels (a grayscale image),
    [process_image_for_ocr] raises at the first grayscale conversion, in
    [rotate_image_to_center], before it writes anything. *)
Theorem process_refuses_none_and_grayscale (output_dir timestamp : string)
  (w : world) :
  process_image_for_ocr PNone output_dir timestamp w
  = (Raise (cv2_error "cvtColor"), w) /\
  (forall m : image,
      (channels m <> 3)%nat -> (channels m <> 4)%nat ->
      process_image_for_ocr (ndarray m) output_dir timestamp w
      = (Raise (cv2_error "cvtColor"), w)).
Proof.
  split.
  - apply process_image_for_ocr_rejects. discriminate.
  - intros m H3 H4. apply process_image_for_ocr_rejects.
    intros m' [= <-]. split; assumption.
Qed.

(** X3. The result of [cv2.imwrite] is not looked at: when the output
    directory does not exist, each of the four writes gives [False], no
    file appears, and [process_image_for_ocr] goes on to the same failure
    at the contrast enhancement. *)
Theorem missing_directory_goes_unnoticed (img : image)
  (output_dir timestamp : string) (w : world) :
  (channels img = 3 \/ channels img = 4)%nat ->
  mem_string output_dir (dirs w) = false ->
  (forall (label : string) (m : image),
      cv2_imwrite (artifact_path output_dir timestamp label) (ndarray m) w
      = (Ok false, w)) /\
  process_image_for_ocr (ndarray img) output_dir timestamp w
  = (Raise (cv2_error "apply"), w).
Proof.
  intros Hc Hd. split.
  - intros label m. apply imwrite_image_no_dir. exact Hd.
  - apply process_image_for_ocr_run_no_dir; assumption.
Qed.

(** ** The orchestrator *)

Lemma download_raises (image_url : string) (w : world) :
  exists (e : exn) (w' : world),
    download_and_preprocess_image image_url w = (Raise e, w').
Proof.
  rewrite download_and_preprocess_image_run.
  destruct (http w image_url) as [content|];
    [destruct (cv2_imdecode content) as [[|original|c g]|e]|];
    eexists _, _; reflexivity.
Qed.

(** X4. [download_and_preprocess_image] never returns a buffer: whatever the
    address and the world, it ends with an exception, which is the
    connection error of the fetch, the refusal of an empty buffer by
    [cv2.imdecode], the refusal of [None] by [cv2.imwrite], or the failure
    of [img.apply(img)]. *)
Theorem download_never_returns (image_url : string) (w : world) :
  exists (e : exn) (w' : world),
    download_and_preprocess_image image_url w = (Raise e, w') /\
    (e = ConnectionError image_url \/ e = cv2_error "imdecode" \/
     e = cv2_error "imwrite" \/ e = cv2_error "apply").
Proof.
  rewrite download_and_preprocess_image_run.
  destruct (http w image_url) as [content|].
  - destruct (cv2_imdecode content) as [[|original|c g]|e] eqn:Hdec;
      try (eexists _, _; split; [reflexivity | tauto]).
    exists e, (with_output_dir w). split; [reflexivity|].
    right; left. unfold cv2_imdecode in Hdec.
    destruct content as [|b content]; [congruence|].
    destruct (imdecode_bgr (b :: content)) as [[[r c'] d]|]; discriminate.
  - eexists _, _; split; [reflexivity | tauto].
Qed.

(** X5. When the image cannot be fetched, the connection error leaves
    [download_and_preprocess_image] as it is; nothing is decoded and no
    file is written, but the output directory has been created. *)
Theorem fetch_failure_writes_nothing (image_url : string) (w : world) :
  http w image_url = None ->
  download_and_preprocess_image image_url w
  = (Raise (ConnectionError image_url), with_output_dir w) /\
  files (with_output_dir w) = files w /\
  mem_string "processed_images" (dirs (with_output_dir w)) = true.
Proof.
  intros Hget. rewrite download_and_preprocess_image_run, Hget.
  split; [reflexivity|].
  split; [apply with_output_dir_files | apply with_output_dir_dirs].
Qed.

Lemma with_output_dir_messages w :
  messages (with_output_dir w) = messages w /\
  errors (with_output_dir w) = errors w.
Proof. unfold with_output_dir; destruct (mem_string _ _); split; reflexivity. Qed.

(** The orchestrator shows nothing to the user and logs nothing. *)
Lemma download_keeps_messages (image_url : string) (w : world) :
  messages (snd (download_and_preprocess_image image_url w)) = messages w /\
  errors (snd (download_and_preprocess_image image_url w)) = errors w.
Proof.
  rewrite download_and_preprocess_image_run.
  destruct (with_output_dir_messages w) as [Hm He].
  destruct (http w image_url) as [content|];
    [destruct (cv2_imdecode content) as [[|original|c g]|e]|];
    cbn [snd add_files messages errors]; split; assumption.
Qed.

End FurtherPipeline.

Lemma missing_directory_goes_unnoticed_witness :
  process_image_for_ocr (cv := sample_cv []) (ndarray bgr_pixel)
    "processed_images" "20240309_140507" sample_world
  = (Raise (cv2_error "apply"), sample_world).
Proof.
  apply (proj2 (missing_directory_goes_unnoticed (cv := sample_cv [])
                  bgr_pixel "processed_images" "20240309_140507" sample_world
                  (or_introl eq_refl) eq_refl)).
Defined.

Lemma fetch_failure_writes_nothing_witness :
  download_and_preprocess_image (cv := sample_cv []) "https://t.me/file/gone"
    sample_world
  = (Raise (ConnectionError "https://t.me/file/gone"),
     with_output_dir sample_world).
Proof.
  apply (proj1 (fetch_failure_writes_nothing (cv := sample_cv [])
                  "https://t.me/file/gone" sample_world eq_refl)).
Defined.

Lemma process_refuses_none_and_grayscale_witness :
  process_image_for_ocr (cv := sample_cv []) (ndarray gray_pixel)
    "processed_images" "20240309_140507" (with_output_dir sample_world)
  = (Raise (cv2_error "cvtColor"), with_output_dir sample_world).
Proof.
  apply (proj2 (process_refuses_none_and_grayscale (cv := sample_cv [])
                  "processed_images" "20240309_140507"
                  (with_output_dir sample_world)) gray_pixel);
    discriminate.
Defined.

(** ** Timestamps and file names *)

Lemma same_second_stamp (d1 d2 : datetime) :
  same_second d1 d2 ->
  strftime d1 "%Y%m%d_%H%M%S" = strftime d2 "%Y%m%d_%H%M%S".
Proof.
  intros (Hy & Hm & Hd & HH & HM & HS).
  rewrite !strftime_layout, Hy, Hm, Hd, HH, HM, HS. reflexivity.
Qed.

(** X7. The timestamp of a run has second resolution: two readings of the
    clock give the same timestamp exactly when they fall in the same
    second, whatever their microseconds. *)
Theorem timestamp_second_resolution (d1 d2 : datetime) :
  valid_datetime d1 -> valid_datetime d2 ->
  (strftime d1 "%Y%m%d_%H%M%S" = strftime d2 "%Y%m%d_%H%M%S"
   <-> same_second d1 d2).
Proof.
  intros H1 H2. split.
  - intros Heq.
    pose proof (strftime_fields d1 H1) as F1.
    pose proof (strftime_fields d2 H2) as F2.
    rewrite Heq, F2 in F1. injection F1 as Hy Hm Hd HH HM HS.
    unfold same_second. repeat split; symmetry; assumption.
  - apply same_second_stamp.
Qed.

Lemma sample_time_later_valid : valid_datetime sample_time_later.
Proof. unfold valid_datetime, sample_time_later; cbn. lia. Qed.

Lemma timestamp_second_resolution_witness :
  strftime sample_time "%Y%m%d_%H%M%S"
  = strftime sample_time_later "%Y%m%d_%H%M%S"
  <-> same_second sample_time sample_time_later.
Proof.
  apply (timestamp_second_resolution sample_time sample_time_later
           sample_time_valid sample_time_later_valid).
Defined.

Lemma append_inj_r (s a b : string) : (s ++ a = s ++ b)%string -> a = b.
Proof.
  induction s as [|c s IH]; cbn; intros H; [exact H|].
  injection H as H. apply IH, H.
Qed.

Lemma path_eqb_eq (p q : path) : path_eqb p q = true <-> p = q.
Proof.
  unfold path_eqb. destruct p as [d n], q as [d' n']; cbn.
  rewrite andb_true_iff, !String.eqb_eq. split.
  - intros [-> ->]. reflexivity.
  - intros [= -> ->]. auto.
Qed.

(** Reading back from a log whose newest entries have distinct names. *)
Lemma lookup_file_newest (l rest : list (path * list Byte.byte)) (p : path)
  (c : list Byte.byte) :
  NoDup (map fst l) -> In (p, c) l -> lookup_file p (l ++ rest) = Some c.
Proof.
  induction l as [|[q d] l IH]; intros Hnd Hin; [destruct Hin|].
  cbn in Hnd. inversion Hnd as [|? ? Hq Hnd']; subst.
  cbn [app lookup_file].
  destruct (path_eqb p q) eqn:E.
  - apply path_eqb_eq in E; subst q.
    destruct Hin as [[= ->] | Hin]; [reflexivity|].
    exfalso. apply Hq. apply (in_map fst) in Hin. exact Hin.
  - destruct Hin as [[= -> ->] | Hin].
    + assert (path_eqb p p = true) by (apply path_eqb_eq; reflexivity).
      congruence.
    + apply IH; assumption.
Qed.

Lemma five_names_distinct (d ts : string) :
  NoDup (map (artifact_path d ts)
           ["3_denoised"; "2_threshold"; "21_threshold"; "1_gray"; "original"]).
Proof.
  assert (Hinj : forall a b : string,
             artifact_path d ts a = artifact_path d ts b ->
             ("_" ++ a ++ ".png" = "_" ++ b ++ ".png")%string).
  { intros a b. unfold artifact_path, os_path_join. intros [= H].
    apply (append_inj_r ts). exact H. }
  cbn [map].
  repeat (constructor;
          [cbn [In]; intros Hin;
           repeat (destruct Hin as [Hin | Hin];
                   [apply Hinj in Hin; discriminate|]);
           exact Hin|]).
  constructor.
Qed.

Section ReadBack.

Context {cv : OpenCV}.

Lemma run_artifacts_names_distinct (d ts : string) (content : list Byte.byte) :
  NoDup (map fst (named d ts (run_artifacts content))).
Proof.
  unfold named. rewrite map_map; cbn [fst].
  rewrite <- (map_map fst (artifact_path d ts)).
  destruct (run_artifacts_labels content) as [E | E]; rewrite E.
  - constructor.
  - apply five_names_distinct.
Qed.

Lemma read_back_written (image_url : string) (content : list Byte.byte)
  (w : world) (p : path) (c : list Byte.byte) :
  http w image_url = Some content ->
  In (p, c)
    (named "processed_images" (strftime (now w) "%Y%m%d_%H%M%S")
       (run_artifacts content)) ->
  read_back p (snd (download_and_preprocess_image image_url w)) = Some c.
Proof.
  intros Hget Hin. unfold read_back.
  rewrite (download_files image_url content w Hget).
  apply lookup_file_newest; [apply run_artifacts_names_distinct | exact Hin].
Qed.

(** X8. Every file a run writes reads back with the content the run gave it:
    the artifacts of one run have pairwise distinct names, none overwrites
    another, and each replaces whatever older file had its name. *)
Theorem artifacts_read_back (image_url : string) (content : list Byte.byte)
  (w : world) (p : path) (c : list Byte.byte) :
  http w image_url = Some content ->
  In (p, c)
    (named "processed_images" (strftime (now w) "%Y%m%d_%H%M%S")
       (run_artifacts content)) ->
  read_back p (snd (download_and_preprocess_image image_url w)) = Some c /\
  NoDup (map fst
           (named "processed_images" (strftime (now w) "%Y%m%d_%H%M%S")
              (run_artifacts content))).
Proof.
  intros Hget Hin. split.
  - apply (read_back_written image_url content); assumption.
  - apply run_artifacts_names_distinct.
Qed.

(** X9. Two runs within the same second give their artifacts the same names.
    The files of both runs are in the log, but after the second run every
    such name reads back the content of the second run: what the first run
    wrote under it is not read any more. *)
Theorem same_second_runs_overwrite (url1 url2 : string)
  (content1 content2 : list Byte.byte) (w1 w2 : world) (label : string)
  (c1 c2 : list Byte.byte) :
  http w1 url1 = Some content1 ->
  http w2 url2 = Some content2 ->
  files w2 = files (snd (download_and_preprocess_image url1 w1)) ->
  same_second (now w1) (now w2) ->
  In (label, c1) (run_artifacts content1) ->
  In (label, c2) (run_artifacts content2) ->
  let stamp := strftime (now w1) "%Y%m%d_%H%M%S" in
  read_back (artifact_path "processed_images" stamp label)
    (snd (download_and_preprocess_image url1 w1)) = Some c1 /\
  read_back (artifact_path "processed_images" stamp label)
    (snd (download_and_preprocess_image url2 w2)) = Some c2 /\
  files (snd (download_and_preprocess_image url2 w2))
  = named "processed_images" stamp (run_artifacts content2)
    ++ named "processed_images" stamp (run_artifacts content1) ++ files w1.
Proof.
  intros H1 H2 Hfiles Hsec Hin1 Hin2 stamp. subst stamp.
  split; [|split].
  - apply (read_back_written url1 content1 w1 _ _ H1).
    unfold named.
    apply (in_map (fun a => (artifact_path "processed_images"
                               (strftime (now w1) "%Y%m%d_%H%M%S") (fst a),
                             snd a)) _ _ Hin1).
  - rewrite (same_second_stamp _ _ Hsec).
    apply (read_back_written url2 content2 w2 _ _ H2).
    unfold named.
    apply (in_map (fun a => (artifact_path "processed_images"
                               (strftime (now w2) "%Y%m%d_%H%M%S") (fst a),
                             snd a)) _ _ Hin2).
  - rewrite (download_files url2 content2 w2 H2), Hfiles.
    rewrite (download_files url1 content1 w1 H1).
    rewrite (same_second_stamp _ _ Hsec). reflexivity.
Qed.

End ReadBack.

Lemma artifacts_read_back_witness :
  read_back (mkPath "processed_images" "20240309_140507_original.png")
    (snd (download_and_preprocess_image (cv := sample_cv []) photo_url
            sample_world))
  = Some png_buffer.
Proof.
  apply (proj1 (artifacts_read_back (cv := sample_cv []) photo_url png_buffer
                  sample_world
                  (mkPath "processed_images" "20240309_140507_original.png")
                  png_buffer eq_refl
                  (or_intror (or_intror (or_intror (or_intror
                     (or_introl eq_refl))))))).
Defined.

Lemma same_second_runs_overwrite_witness :
  read_back (mkPath "processed_images" "20240309_140507_original.png")
    (snd (download_and_preprocess_image (cv := sample_cv []) later_url
            sample_world_later))
  = Some later_buffer.
Proof.
  apply (proj1 (proj2
    (same_second_runs_overwrite (cv := sample_cv [])
       photo_url later_url png_buffer later_buffer
       sample_world sample_world_later "original" png_buffer later_buffer
       eq_refl eq_refl eq_refl
       (conj eq_refl (conj eq_refl (conj eq_refl (conj eq_refl
          (conj eq_refl eq_refl)))))
       (or_intror (or_intror (or_intror (or_intror (or_introl eq_refl)))))
       (or_intror (or_intror (or_intror (or_intror (or_introl eq_refl)))))))).
Defined.

(** ** The median, again *)

Lemma filter_none {A : Type} (f : A -> bool) (l : list A) :
  Forall (fun x => f x = false) l -> filter f l = [].
Proof.
  induction 1 as [|x l Hx _ IH]; cbn; [reflexivity|].
  rewrite Hx. exact IH.
Qed.

Lemma filter_length_bound {A : Type} (f : A -> bool) (l : list A) :
  (length (filter f l) <= length l)%nat.
Proof.
  induction l as [|x l IH]; cbn; [lia|].
  destruct (f x); cbn; lia.
Qed.

Lemma filter_length_mono {A : Type} (f g : A -> bool) (l : list A) :
  (forall x, f x = true -> g x = true) ->
  (length (filter f l) <= length (filter g l))%nat.
Proof.
  intros Hfg. induction l as [|x l IH]; cbn; [lia|].
  destruct (f x) eqn:Ef.
  - rewrite (Hfg x Ef). cbn. lia.
  - destruct (g x); cbn; lia.
Qed.

Lemma count_lt_sorted (s : list Q) (k : nat) :
  StronglySorted Qle s -> (k < length s)%nat ->
  (count_lt (nth k s 0%Q) s <= k)%nat.
Proof.
  intros Hs Hk. unfold count_lt.
  pose proof (sorted_suffix s k Hs Hk) as Hsuf.
  set (v := nth k s 0%Q) in *.
  rewrite <- (firstn_skipn k s).
  rewrite filter_app, length_app, (filter_none _ (skipn k s)).
  - pose proof (filter_length_bound
                  (fun x => negb (Qle_bool v x)) (firstn k s)).
    rewrite length_firstn in H. cbn [length]. lia.
  - eapply Forall_impl; [|exact Hsuf].
    intros x Hx; cbn in Hx. apply Qle_bool_iff in Hx. now rewrite Hx.
Qed.

Lemma sorted_nth_not_below (s s' : list Q) (k : nat) :
  StronglySorted Qle s -> StronglySorted Qle s' -> Permutation s s' ->
  (k < length s)%nat -> ~ (nth k s 0 < nth k s' 0)%Q.
Proof.
  intros Hs Hs' Hp Hk Hlt.
  assert (Hk' : (k < length s')%nat)
    by (rewrite <- (Permutation_length Hp); exact Hk).
  pose proof (count_le_sorted s k _ Hs Hk (Qle_refl _)) as H1.
  unfold count_le in H1. rewrite (filter_length_perm _ _ _ Hp) in H1.
  pose proof (count_lt_sorted s' k Hs' Hk') as H2. unfold count_lt in H2.
  pose proof (filter_length_mono
                (fun x => Qle_bool x (nth k s 0%Q))
                (fun x => negb (Qle_bool (nth k s' 0%Q) x)) s') as H3.
  assert (Himp : forall x : Q,
             Qle_bool x (nth k s 0%Q) = true ->
             negb (Qle_bool (nth k s' 0%Q) x) = true).
  { intros x Hx. apply Qle_bool_iff in Hx.
    destruct (Qle_bool (nth k s' 0%Q) x) eqn:E; [|reflexivity].
    apply Qle_bool_iff in E. exfalso.
    apply (Qlt_irrefl (nth k s 0%Q)).
    eapply Qlt_le_trans; [exact Hlt|]. eapply Qle_trans; eassumption. }
  specialize (H3 Himp). lia.
Qed.

(** Two sorted arrangements of the same values agree, up to the equality
    of rationals, at every index. *)
Lemma sorted_nth_perm (s s' : list Q) (k : nat) :
  StronglySorted Qle s -> StronglySorted Qle s' -> Permutation s s' ->
  (k < length s)%nat -> (nth k s 0 == nth k s' 0)%Q.
Proof.
  intros Hs Hs' Hp Hk.
  assert (Hk' : (k < length s')%nat)
    by (rewrite <- (Permutation_length Hp); exact Hk).
  apply Qle_antisym; apply Qnot_lt_le.
  - apply sorted_nth_not_below; auto. now apply Permutation_sym.
  - apply sorted_nth_not_below; auto.
Qed.

Lemma np_median_perm (a b : list Q) :
  Permutation a b -> (np_median a == np_median b)%Q.
Proof.
  intros Hp.
  destruct a as [|x a].
  { apply Permutation_nil in Hp; subst b. reflexivity. }
  assert (Hps : Permutation (np_sort (x :: a)) (np_sort b)).
  { eapply perm_trans; [apply Permutation_sym, np_sort_perm|].
    eapply perm_trans; [exact Hp | apply np_sort_perm]. }
  pose proof (np_sort_sorted (x :: a)) as Hs.
  pose proof (np_sort_sorted b) as Hs'.
  pose proof (Permutation_length Hps) as Hl.
  unfold np_median. rewrite <- Hl.
  set (s := np_sort (x :: a)) in *. set (s' := np_sort b) in *.
  assert (Hpos : (0 < length s)%nat).
  { unfold s. rewrite np_sort_length. cbn. lia. }
  set (n := length s) in *.
  destruct (Nat.even n) eqn:Ev.
  - apply Nat.even_spec in Ev. destruct Ev as [h Hh].
    assert (Hdiv : (n / 2 = h)%nat).
    { rewrite Hh, Nat.mul_comm. apply Nat.div_mul. discriminate. }
    rewrite Hdiv.
    rewrite (sorted_nth_perm s s' (h - 1) Hs Hs' Hps) by (fold n; lia).
    rewrite (sorted_nth_perm s s' h Hs Hs' Hps) by (fold n; lia).
    reflexivity.
  - assert (Od : Nat.odd n = true) by (rewrite <- Nat.negb_even, Ev; reflexivity).
    apply Nat.odd_spec in Od. destruct Od as [h Hh].
    assert (Hdiv : (n / 2 = h)%nat).
    { symmetry. apply (Nat.div_unique n 2 h 1); [repeat constructor | exact Hh]. }
    rewrite Hdiv.
    apply (sorted_nth_perm s s' h Hs Hs' Hps). fold n. lia.
Qed.

(** X10. The angle of the rotation does not depend on the order in which the
    line detection reports its candidates. *)
Theorem skew_angle_order_independent (lines lines' : list line) :
  Permutation lines lines' ->
  (np_median (line_angles lines) == np_median (line_angles lines'))%Q.
Proof.
  intros Hp. unfold line_angles.
  rewrite (line_angles_app lines []), (line_angles_app lines' []).
  cbn [app]. apply np_median_perm. apply Permutation_map. exact Hp.
Qed.

Lemma skew_angle_order_independent_witness :
  (np_median (line_angles [mkLine 1 (Rad 95); mkLine 2 (Rad 91); mkLine 3 (Rad 170)])
   == np_median (line_angles [mkLine 3 (Rad 170); mkLine 1 (Rad 95); mkLine 2 (Rad 91)]))%Q.
Proof.
  apply skew_angle_order_independent.
  apply Permutation_cons_app with (l1 := [mkLine 3 (Rad 170)]) (l2 := [mkLine 2 (Rad 91)]).
  apply perm_swap.
Defined.

Lemma np_median_bounds (a : list Q) (lo hi : Q) :
  a <> [] -> Forall (fun x => (lo <= x <= hi)%Q) a ->
  (lo <= np_median a <= hi)%Q.
Proof.
  intros Hne Hall.
  assert (Hs : Forall (fun x => (lo <= x <= hi)%Q) (np_sort a)).
  { eapply Permutation_Forall; [apply np_sort_perm | exact Hall]. }
  rewrite Forall_forall in Hs.
  assert (Hlen : (0 < length (np_sort a))%nat).
  { rewrite np_sort_length. destruct a; [congruence | cbn; lia]. }
  unfold np_median.
  set (s := np_sort a) in *. set (n := length s) in *.
  assert (Hnth : forall k, (k < n)%nat -> (lo <= nth k s 0 <= hi)%Q).
  { intros k Hk. apply Hs, nth_In. exact Hk. }
  destruct (Nat.even n) eqn:Ev.
  - apply Nat.even_spec in Ev. destruct Ev as [h Hh].
    assert (Hdiv : (n / 2 = h)%nat).
    { rewrite Hh, Nat.mul_comm. apply Nat.div_mul. discriminate. }
    rewrite Hdiv.
    destruct (Hnth (h - 1)%nat ltac:(lia)) as [H1 H2].
    destruct (Hnth h ltac:(lia)) as [H3 H4].
    split.
    + apply Qle_shift_div_l; [reflexivity|]. Lqa.lra.
    + apply Qle_shift_div_r; [reflexivity|]. Lqa.lra.
  - assert (Od : Nat.odd n = true) by (rewrite <- Nat.negb_even, Ev; reflexivity).
    apply Nat.odd_spec in Od. destruct Od as [h Hh].
    assert (Hdiv : (n / 2 = h)%nat).
    { symmetry. apply (Nat.div_unique n 2 h 1); [repeat constructor | exact Hh]. }
    rewrite Hdiv. apply Hnth. lia.
Qed.

Lemma line_angles_bounds (lines : list line) (lo hi : Q) :
  lines <> [] ->
  (forall c : line, In c lines -> (lo <= normalized_angle c <= hi)%Q) ->
  (lo <= np_median (line_angles lines) <= hi)%Q.
Proof.
  intros Hne Hall. unfold line_angles.
  rewrite (line_angles_app lines []). cbn [app].
  apply np_median_bounds.
  - destruct lines; [congruence | discriminate].
  - apply Forall_forall. intros x Hx. apply in_map_iff in Hx.
    destruct Hx as (c & <- & Hc). apply (Hall c Hc).
Qed.

(** X11. The angle of the rotation lies within the range of the normalized
    angles of the detected lines: an outlier moves it no further than that.
    In particular, for candidates with theta between 0 and 180 degrees the
    rotation is by at most 90 degrees either way. *)
Theorem skew_angle_within_detected_range (lines : list line) (lo hi : Q) :
  lines <> [] ->
  (forall c : line, In c lines -> (lo <= normalized_angle c <= hi)%Q) ->
  (lo <= np_median (line_angles lines) <= hi)%Q /\
  ((forall c : line, In c lines -> (0 <= np_degrees (theta c) <= 180)%Q) ->
   (-(90) <= np_median (line_angles lines) <= 90)%Q).
Proof.
  intros Hne Hall. split; [apply line_angles_bounds; assumption|].
  intros Htheta. apply line_angles_bounds; [exact Hne|].
  intros c Hc. destruct (Htheta c Hc) as [H0 H180].
  unfold normalized_angle. split; Lqa.lra.
Qed.

Lemma Q2R_0 : Q2R 0 = 0%R.
Proof. unfold Q2R; cbn. lra. Qed.

(** X12. When all detected lines have the same normalized angle, with a single
    detected line as a case, that angle is the angle of the rotation; and
    when the lines are horizontal (normalized angle 0) the matrix handed to
    [cv2.warpAffine] leaves every point where it is. *)
Theorem equal_angles_give_that_angle (lines : list line) (v : Q) :
  lines <> [] ->
  (forall c : line, In c lines -> (normalized_angle c == v)%Q) ->
  (np_median (line_angles lines) == v)%Q /\
  ((v == 0)%Q ->
   forall (center : nat * nat) (p : R * R),
     affine_apply
       (cv2_getRotationMatrix2D center (np_median (line_angles lines)) 1) p
     = p).
Proof.
  intros Hne Hall.
  assert (Hm : (np_median (line_angles lines) == v)%Q).
  { apply Qle_antisym; apply (line_angles_bounds lines v v Hne);
      intros c Hc; rewrite (Hall c Hc); split; apply Qle_refl. }
  split; [exact Hm|].
  intros Hv center [x y].
  unfold affine_apply, cv2_getRotationMatrix2D, deg2R; cbn.
  rewrite (Qeq_eqR _ _ Hm), (Qeq_eqR _ _ Hv), Q2R_0.
  replace (0 * PI / 180)%R with 0%R by lra.
  rewrite cos_0, sin_0. f_equal; ring.
Qed.

(** X13. The rotation of [rotate_image_to_center] (scale 1.0) is rigid: it
    keeps the centre it is given in place and the distance of any two
    points, for every angle. *)
Theorem rotation_is_rigid (center : nat * nat) (angle : Q) (p q : R * R) :
  affine_apply (cv2_getRotationMatrix2D center angle 1)
    (INR (fst center), INR (snd center))
  = (INR (fst center), INR (snd center)) /\
  dist2 (affine_apply (cv2_getRotationMatrix2D center angle 1) p)
        (affine_apply (cv2_getRotationMatrix2D center angle 1) q)
  = dist2 p q.
Proof.
  pose proof (sin2_cos2 (deg2R angle)) as Hsc. unfold Rsqr in Hsc.
  destruct p as [x1 y1], q as [x2 y2].
  unfold affine_apply, cv2_getRotationMatrix2D, dist2; cbn.
  set (c := cos (deg2R angle)) in *. set (s := sin (deg2R angle)) in *.
  split.
  - f_equal; ring.
  - transitivity ((s * s + c * c)
                  * ((x1 - x2) * (x1 - x2) + (y1 - y2) * (y1 - y2)))%R.
    + ring.
    + rewrite Hsc. ring.
Qed.

Lemma skew_angle_within_detected_range_witness :
  (1 <= np_median (line_angles lines_normalized_1_2_3_88) <= 88)%Q.
Proof.
  apply (proj1 (skew_angle_within_detected_range
                  lines_normalized_1_2_3_88 1 88 ltac:(discriminate)
                  ltac:(intros c [<- | [<- | [<- | [<- | []]]]];
                        split; discriminate))).
Defined.

Lemma equal_angles_give_that_angle_witness :
  (np_median (line_angles [mkLine 12 (Rad 90); mkLine 40 (Rad 90)]) == 0)%Q.
Proof.
  apply (proj1 (equal_angles_give_that_angle
                  [mkLine 12 (Rad 90); mkLine 40 (Rad 90)] 0
                  ltac:(discriminate)
                  ltac:(intros c [<- | [<- | []]]; reflexivity))).
Defined.

(** * Properties of the bot *)

(** ** The operation id *)

Lemma split_on_last (sep : ascii) (s : string) :
  exists (front : list string) (id prefix : string),
    split_on sep s = front ++ [id] /\
    occurs sep id = false /\
    s = (prefix ++ id)%string /\
    (front = [] -> s = id).
Proof.
  induction s as [|c rest IH].
  - exists [], EmptyString, EmptyString. repeat split; reflexivity.
  - destruct IH as (front & id & prefix & Hsplit & Hid & Hsuf & Hwhole).
    cbn [split_on]. destruct (Ascii.eqb c sep) eqn:E.
    + exists (EmptyString :: front), id, (String c prefix).
      rewrite Hsplit. repeat split; try assumption.
      * cbn. now rewrite <- Hsuf.
      * discriminate.
    + rewrite Hsplit. destruct front as [|f fs].
      * exists [], (String c id), EmptyString. cbn.
        rewrite E, Hid. repeat split; try reflexivity.
        all: now rewrite (Hwhole eq_refl).
      * exists (String c f :: fs), id, (String c prefix).
        repeat split; try assumption.
        -- cbn. now rewrite <- Hsuf.
        -- discriminate.
Qed.

Lemma split_on_no_sep (sep : ascii) (s : string) :
  occurs sep s = false -> split_on sep s = [s].
Proof.
  induction s as [|c rest IH]; cbn; [reflexivity|].
  intros H. apply orb_false_elim in H. destruct H as [Hc Hrest].
  rewrite Hc, (IH Hrest). reflexivity.
Qed.

Lemma split_on_after_sep (sep : ascii) (prefix id : string) :
  occurs sep id = false ->
  exists (f : string) (fs : list string),
    split_on sep (prefix ++ String sep id) = (f :: fs) ++ [id].
Proof.
  intros Hid. induction prefix as [|c p IH].
  - exists EmptyString, []. cbn. rewrite Ascii.eqb_refl.
    now rewrite (split_on_no_sep sep id Hid).
  - destruct IH as (f & fs & IH). cbn [append split_on].
    rewrite IH. destruct (Ascii.eqb c sep).
    + exists EmptyString, (f :: fs). reflexivity.
    + exists (String c f), fs. reflexivity.
Qed.

Lemma item_last_app {A : Type} (front : list A) (x : A) (b : bot) :
  item_last (front ++ [x]) b = (Done x, b).
Proof. unfold item_last. rewrite rev_app_distr. reflexivity. Qed.

(** X14. [read_operation_location.split("/")[-1]] never fails: it is the part
    of the location after its last slash, free of slashes, and the whole
    location when that has no slash. *)
Theorem operation_id_is_last_segment (location : string) (b : bot) :
  exists id : string,
    operation_id_of location b = (Done id, b) /\
    occurs "/" id = false /\
    (exists prefix : string, location = (prefix ++ id)%string) /\
    (occurs "/" location = false -> id = location) /\
    (forall prefix tail : string,
        location = (prefix ++ "/" ++ tail)%string ->
        occurs "/" tail = false -> id = tail).
Proof.
  destruct (split_on_last "/" location)
    as (front & id & prefix & Hsplit & Hid & Hsuf & Hwhole).
  exists id. unfold operation_id_of.
  split; [rewrite Hsplit; apply item_last_app|].
  split; [exact Hid|].
  split; [exists prefix; exact Hsuf|].
  split.
  - intros Hno. rewrite (split_on_no_sep _ _ Hno) in Hsplit.
    destruct front as [|f [|g fs]]; cbn in Hsplit; try discriminate.
    now injection Hsplit as <-.
  - intros prefix' tail Hloc Htail.
    destruct (split_on_after_sep "/" prefix' tail Htail) as (f & fs & Hs).
    change (prefix' ++ "/" ++ tail)%string
      with (prefix' ++ String "/" tail)%string in Hloc.
    rewrite <- Hloc, Hsplit in Hs.
    apply app_inj_tail in Hs. tauto.
Qed.

Example operation_id_sample :
  operation_id_of
    "https://westeurope.api.cognitive.microsoft.com/vision/v3.2/read/analyzeResults/0f1e2d3c"
    (new_bot sample_world)
  = (Done "0f1e2d3c", new_bot sample_world).
Proof. reflexivity. Qed.

(** ** Polling *)

Section Polling.

Context {cv : OpenCV} {sv : Services}.

(** One attempt to show a waiting text: it ends normally whether Telegram
    takes the text or not. *)
Lemma edit_attempt (m : string) (b : bot) :
  exists b1 : bot,
    try_b (status_edit_text m)
      (fun e => log_debug ("Message edit failed (expected): " ++ bot_str e)) b
    = (Done tt, b1) /\
    polls b1 = polls b /\ slept b1 = slept b /\
    kept_by_polling b1 = kept_by_polling b /\
    (bound b = true -> edit_refused (messages (host b)) m = false ->
     messages (host b1) = m :: messages (host b)).
Proof.
  unfold try_b, status_edit_text, log_debug.
  destruct (bound b) eqn:Hb; cbn [negb].
  - destruct (edit_refused (messages (host b)) m) eqn:Hr.
    + eexists; split; [reflexivity|]. cbn. unfold kept_by_polling; cbn.
      rewrite Hb. repeat split; try reflexivity. discriminate.
    + eexists; split; [reflexivity|]. cbn. unfold kept_by_polling; cbn.
      rewrite Hb. repeat split; reflexivity.
  - eexists; split; [reflexivity|]. cbn. unfold kept_by_polling; cbn.
    rewrite Hb. repeat split; try reflexivity. discriminate.
Qed.

Lemma poll_final (fuel : nat) (op : string) (dots : nat) (r : read_result)
  (b : bot) :
  read_answer op (polls b) = Some r -> still_waiting r = false ->
  poll (S fuel) op dots b
  = (Done r,
     mkBot (host b) (bound b) (sent_photos b) (ocr_calls b) (debug_log b)
       (info_log b) (S (polls b)) (slept b)).
Proof.
  intros Ha Hw. cbn [poll bind B_monad]. unfold get_read_result.
  rewrite Ha. fold (still_waiting r). rewrite Hw. reflexivity.
Qed.

Lemma poll_waiting (fuel : nat) (op : string) (dots : nat) (r : read_result)
  (b : bot) :
  read_answer op (polls b) = Some r -> still_waiting r = true ->
  exists b2 : bot,
    poll (S fuel) op dots b = poll fuel op (dots mod 3 + 1) b2 /\
    polls b2 = S (polls b) /\ slept b2 = S (slept b) /\
    kept_by_polling b2 = kept_by_polling b /\
    (bound b = true -> edit_refused (messages (host b))
                         (waiting_message (dots mod 3 + 1)) = false ->
     messages (host b2)
     = waiting_message (dots mod 3 + 1) :: messages (host b)).
Proof.
  intros Ha Hw. cbn [poll bind B_monad]. unfold get_read_result.
  rewrite Ha. fold (still_waiting r). rewrite Hw. cbn [negb].
  set (b0 := mkBot (host b) (bound b) (sent_photos b) (ocr_calls b)
               (debug_log b) (info_log b) (S (polls b)) (slept b)).
  destruct (edit_attempt (waiting_message (dots mod 3 + 1)) b0)
    as (b1 & Heq & Hp & Hs & Hk & Hm).
  rewrite Heq. unfold time_sleep.
  eexists. split; [reflexivity|]. cbn.
  rewrite Hp, Hs. repeat split; try reflexivity.
  - unfold kept_by_polling in *; cbn in *. exact Hk.
  - intros Hb Hr. apply Hm; assumption.
Qed.

Lemma poll_run (k fuel : nat) (op : string)
  (dots : nat) (r : read_result) (b : bot) :
  (forall i : nat, (i < k)%nat ->
     exists r' : read_result,
       read_answer op (polls b + i) = Some r' /\ still_waiting r' = true) ->
  read_answer op (polls b + k) = Some r ->
  still_waiting r = false ->
  (k < fuel)%nat ->
  exists b' : bot,
    poll fuel op dots b = (Done r, b') /\
    polls b' = (polls b + k + 1)%nat /\
    slept b' = (slept b + k)%nat /\
    kept_by_polling b' = kept_by_polling b.
Proof.
  revert fuel dots b. induction k as [|k IH]; intros fuel dots b Hwait Hr Hfin Hfuel.
  - destruct fuel as [|fuel]; [lia|].
    rewrite Nat.add_0_r in Hr. rewrite (poll_final fuel op dots r b Hr Hfin).
    eexists. split; [reflexivity|]. cbn.
    repeat split; lia.
  - destruct fuel as [|fuel]; [lia|].
    destruct (Hwait 0%nat ltac:(lia)) as (r0 & Hr0 & Hw0).
    rewrite Nat.add_0_r in Hr0.
    destruct (poll_waiting fuel op dots r0 b Hr0 Hw0)
      as (b2 & Heq & Hp & Hs & Hk & _).
    rewrite Heq.
    destruct (IH fuel (dots mod 3 + 1)%nat b2) as (b' & Hrun & Hp' & Hs' & Hk').
    + intros i Hi. rewrite Hp.
      replace (S (polls b) + i)%nat with (polls b + S i)%nat by lia.
      apply Hwait. lia.
    + rewrite Hp. replace (S (polls b) + k)%nat with (polls b + S k)%nat by lia.
      exact Hr.
    + exact Hfin.
    + lia.
    + exists b'. split; [exact Hrun|].
      rewrite Hp', Hs', Hk', Hp, Hs, Hk. repeat split; lia.
Qed.

(** X15. The polling loop ends with the first answer whose status is neither
    notStarted nor running: after [k] such answers it has polled [k + 1]
    times and slept [k] seconds, whether or not Telegram took the waiting
    texts, and it has touched neither the files nor the requests made. *)
Theorem poll_ends_at_first_final_answer (k fuel : nat) (op : string)
  (dots : nat) (r : read_result) (b : bot) :
  (forall i : nat, (i < k)%nat ->
     exists r' : read_result,
       read_answer op (polls b + i) = Some r' /\ still_waiting r' = true) ->
  read_answer op (polls b + k) = Some r ->
  still_waiting r = false ->
  (k < fuel)%nat ->
  exists b' : bot,
    poll fuel op dots b = (Done r, b') /\
    polls b' = (polls b + k + 1)%nat /\
    slept b' = (slept b + k)%nat /\
    kept_by_polling b' = kept_by_polling b.
Proof.
  revert fuel dots b. induction k as [|k IH]; intros fuel dots b Hwait Hr Hfin Hfuel.
  - destruct fuel as [|fuel]; [lia|].
    rewrite Nat.add_0_r in Hr. rewrite (poll_final fuel op dots r b Hr Hfin).
    eexists. split; [reflexivity|]. cbn.
    repeat split; lia.
  - destruct fuel as [|fuel]; [lia|].
    destruct (Hwait 0%nat ltac:(lia)) as (r0 & Hr0 & Hw0).
    rewrite Nat.add_0_r in Hr0.
    destruct (poll_waiting fuel op dots r0 b Hr0 Hw0)
      as (b2 & Heq & Hp & Hs & Hk & _).
    rewrite Heq.
    destruct (IH fuel (dots mod 3 + 1)%nat b2) as (b' & Hrun & Hp' & Hs' & Hk').
    + intros i Hi. rewrite Hp.
      replace (S (polls b) + i)%nat with (polls b + S i)%nat by lia.
      apply Hwait. lia.
    + rewrite Hp. replace (S (polls b) + k)%nat with (polls b + S k)%nat by lia.
      exact Hr.
    + exact Hfin.
    + lia.
    + exists b'. split; [exact Hrun|].
      rewrite Hp', Hs', Hk', Hp, Hs, Hk. repeat split; lia.
Qed.

(** X16. The loop has no timeout: while the service keeps answering notStarted
    or running, it polls and sleeps once a second, for ever. *)
Theorem poll_never_gives_up (fuel : nat) (op : string) (dots : nat) (b : bot) :
  (forall n : nat,
     exists r : read_result,
       read_answer op n = Some r /\ still_waiting r = true) ->
  fst (poll fuel op dots b) = Running /\
  polls (snd (poll fuel op dots b)) = (polls b + fuel)%nat /\
  slept (snd (poll fuel op dots b)) = (slept b + fuel)%nat.
Proof.
  intros Hwait. revert dots b. induction fuel as [|fuel IH]; intros dots b.
  - cbn. repeat split; lia.
  - destruct (Hwait (polls b)) as (r & Hr & Hw).
    destruct (poll_waiting fuel op dots r b Hr Hw)
      as (b2 & Heq & Hp & Hs & _).
    rewrite Heq. destruct (IH (dots mod 3 + 1)%nat b2) as (H1 & H2 & H3).
    rewrite H1, H2, H3, Hp, Hs. repeat split; lia.
Qed.

End Polling.

(** ** The handlers *)

Section Handlers.

Context {cv : OpenCV} {sv : Services}.

Lemma handle_photo_cv_parts (fuel : nat) (photo : list string) (b : bot) :
  handle_photo_cv fuel photo b
  = try_b (p <- prepare photo ;; recognize fuel (fst p) (snd p)) on_error b.
Proof.
  unfold handle_photo_cv, prepare, try_b. cbn [bind B_monad].
  destruct (reply_status _ b) as [[[]|e|] b1]; try reflexivity.
  destruct (item_last photo b1) as [[id|e|] b2]; try reflexivity.
  destruct (get_file id b2) as [[url|e|] b3]; try reflexivity.
  destruct (status_edit_text _ b3) as [[[]|e|] b4]; try reflexivity.
  destruct (in_world ensure_output_dir b4) as [[dir|e|] b5]; try reflexivity.
  destruct (in_world (download_and_preprocess_image url) b5)
    as [[image|e|] b6].
  - destruct (status_edit_text _ b6) as [[[]|e|] b7]; try reflexivity.
    destruct (log_error _ b7) as [[[]|e'|] b8]; try reflexivity.
    destruct (status_edit_text _ b8) as [[[]|e'|] b9]; reflexivity.
  - destruct (log_error _ b6) as [[[]|e'|] b7]; try reflexivity.
    destruct (status_edit_text _ b7) as [[[]|e'|] b8]; reflexivity.
  - reflexivity.
Qed.

(** The polling loop shows one waiting text per round, "Analyzing your
    image" followed by one to three dots; with the start value 1 of
    [handle_photo] the dots go 2, 3, 1, 2, 3, 1 and so on. *)
Lemma poll_texts (k fuel : nat) (op : string) (dots : nat) (r : read_result)
  (b : bot) :
  bound b = true ->
  (forall (shown : list string) (s : string), edit_refused shown s = false) ->
  (forall i : nat, (i < k)%nat ->
     exists r' : read_result,
       read_answer op (polls b + i) = Some r' /\ still_waiting r' = true) ->
  read_answer op (polls b + k) = Some r ->
  still_waiting r = false ->
  (k < fuel)%nat ->
  messages (host (snd (poll fuel op dots b)))
  = waiting_texts dots k ++ messages (host b).
Proof.
  intros Hb Hacc. revert fuel dots b Hb.
  induction k as [|k IH]; intros fuel dots b Hb Hwait Hr Hfin Hfuel.
  - destruct fuel as [|fuel]; [lia|].
    rewrite Nat.add_0_r in Hr. rewrite (poll_final fuel op dots r b Hr Hfin).
    reflexivity.
  - destruct fuel as [|fuel]; [lia|].
    destruct (Hwait 0%nat ltac:(lia)) as (r0 & Hr0 & Hw0).
    rewrite Nat.add_0_r in Hr0.
    destruct (poll_waiting fuel op dots r0 b Hr0 Hw0)
      as (b2 & Heq & Hp & Hs & Hk & Hm).
    rewrite Heq. rewrite (IH fuel (dots mod 3 + 1)%nat b2).
    + rewrite (Hm Hb (Hacc _ _)).
      unfold waiting_texts. cbn [seq map rev].
      rewrite <- seq_shift, map_map, Nat.add_0_r.
      rewrite <- app_assoc. cbn [app]. f_equal. f_equal.
      apply map_ext. intros i. f_equal. f_equal.
      rewrite <- Nat.add_assoc, Nat.Div0.add_mod_idemp_l.
      f_equal.
    + unfold kept_by_polling in Hk. injection Hk as Hbound. congruence.
    + intros i Hi. rewrite Hp.
      replace (S (polls b) + i)%nat with (polls b + S i)%nat by lia.
      apply Hwait. lia.
    + rewrite Hp. replace (S (polls b) + k)%nat with (polls b + S k)%nat by lia.
      exact Hr.
    + exact Hfin.
    + lia.
Qed.

(** X17. The polling loop shows one waiting text per round it waits, each
    "Analyzing your image" followed by one to three dots; with the start
    value 1 of [handle_photo] the dots go 2, 3, 1, 2, 3, 1 and so on. *)
Theorem polling_shows_cycling_dots (k fuel : nat) (op : string) (dots : nat)
  (r : read_result) (b : bot) :
  bound b = true ->
  (forall (shown : list string) (s : string), edit_refused shown s = false) ->
  (forall i : nat, (i < k)%nat ->
     exists r' : read_result,
       read_answer op (polls b + i) = Some r' /\ still_waiting r' = true) ->
  read_answer op (polls b + k) = Some r ->
  still_waiting r = false ->
  (k < fuel)%nat ->
  messages (host (snd (poll fuel op dots b)))
  = rev (map (fun i => waiting_message ((dots + i) mod 3 + 1)) (seq 0 k))
    ++ messages (host b) /\
  (forall i : nat, 1 <= (dots + i) mod 3 + 1 <= 3)%nat /\
  (forall i : nat,
      ((dots + S i) mod 3 + 1 <> (dots + i) mod 3 + 1)%nat).
Proof.
  intros Hb Hacc Hwait Hr Hfin Hfuel.
  split; [apply (poll_texts k fuel op dots r b); assumption|].
  split.
  - intros i. pose proof (Nat.mod_upper_bound (dots + i) 3 ltac:(discriminate)).
    lia.
  - intros i.
    replace (dots + S i)%nat with (1 + (dots + i))%nat by lia.
    rewrite <- Nat.Div0.add_mod_idemp_r.
    pose proof (Nat.mod_upper_bound (dots + i) 3 ltac:(discriminate)) as Hlt.
    destruct ((dots + i) mod 3)%nat as [|[|[|n]]]; cbn; try discriminate.
    lia.
Qed.

(** The handler of the outer [except]: the error is logged and the user is
    told, by an edit of the status message or, when that fails, by a new
    reply; only the refusal of that reply is an exception. *)
Lemma on_error_run (e : bot_exn) (b : bot) :
  on_error e b
  = let b1 := set_host
                (add_errors [("Error processing image: " ++ bot_str e)%string]
                   (host b)) b in
    if bound b && negb (edit_refused (messages (host b)) text_error)
    then (Done tt, set_host (add_messages [text_error] (host b1)) b1)
    else if reply_refused (messages (host b)) text_error
    then (Failed (TelegramError text_error), b1)
    else (Done tt, set_host (add_messages [text_error] (host b1)) b1).
Proof.
  unfold on_error, log_error, try_b, status_edit_text, reply_text.
  cbn -[append text_error]. fold text_error.
  destruct (bound b); cbn -[append text_error].
  - destruct (edit_refused (messages (host b)) text_error);
      cbn -[append text_error]; [|reflexivity].
    destruct (reply_refused (messages (host b)) text_error); reflexivity.
  - destruct (reply_refused (messages (host b)) text_error); reflexivity.
Qed.

(** X22. [handle_photo] of the OCR bot lets no exception out, but for one case:
    the last reply to the user, sent when the status message could not be
    edited, is itself refused by Telegram. *)
Theorem handle_photo_cv_fails_only_on_refused_reply (fuel : nat)
  (photo : list string) (b b' : bot) (e : bot_exn) :
  handle_photo_cv fuel photo b = (Failed e, b') ->
  e = TelegramError text_error /\
  reply_refused (messages (host b')) text_error = true /\
  (bound b' = false \/ edit_refused (messages (host b')) text_error = true).
Proof.
  rewrite handle_photo_cv_parts. unfold try_b.
  destruct (bind (prepare photo) _ b) as [[[]|e0|] b0]; try discriminate.
  rewrite on_error_run. cbv zeta.
  destruct (bound b0) eqn:Hb; cbn [andb].
  - destruct (edit_refused (messages (host b0)) text_error) eqn:He;
      cbn [negb]; [|discriminate].
    destruct (reply_refused (messages (host b0)) text_error) eqn:Hr;
      [|discriminate].
    intros [= <- <-]. cbn. rewrite Hr, He. auto.
  - destruct (reply_refused (messages (host b0)) text_error) eqn:Hr;
      [|discriminate].
    intros [= <- <-]. cbn. rewrite Hr, Hb. auto.
Qed.

Lemma item_last_cases {A : Type} (l : list A) (b : bot) :
  (l = [] /\ item_last l b = (Failed IndexError, b)) \/
  (exists (front : list A) (x : A),
      l = front ++ [x] /\ item_last l b = (Done x, b)).
Proof.
  unfold item_last. destruct (rev l) as [|x rest] eqn:E.
  - left. split; [|reflexivity].
    rewrite <- (rev_involutive l), E. reflexivity.
  - right. exists (rev rest), x. split; [|reflexivity].
    rewrite <- (rev_involutive l), E. reflexivity.
Qed.

(** What the orchestrator leaves of the world in which it is called. *)
Lemma download_shown (url : string) (w w1 : world) (e : exn) :
  download_and_preprocess_image url (before_preprocessing w) = (Raise e, w1) ->
  messages w1
  = ["🖼️ Preprocessing image to enhance text recognition...";
     "🔍 Receiving your image..."] ++ messages w /\
  errors w1 = errors w.
Proof.
  intros Hrun.
  pose proof (download_keeps_messages url (before_preprocessing w)) as [Hm He].
  rewrite Hrun in Hm, He. cbn [snd] in Hm, He.
  rewrite Hm, He. unfold before_preprocessing.
  rewrite (proj1 (with_output_dir_messages _)).
  rewrite (proj2 (with_output_dir_messages _)).
  split; reflexivity.
Qed.

(** The statements of [handle_photo_cv] before the OCR call, for a
    photograph with a file path and a Telegram that takes the first two
    texts: the orchestrator raises, the error is logged, and the edit to the
    text of the preprocessing error decides how they end.  When Telegram
    takes it, there is no processed image; when Telegram refuses it, its
    error leaves the [except] and the assignment [processed_image = None]
    is not reached. *)
Lemma prepare_run (photo front : list string) (id url : string) (b : bot) :
  photo = front ++ [id] ->
  file_path id = Some url ->
  reply_refused (messages (host b)) "🔍 Receiving your image..." = false ->
  edit_refused ("🔍 Receiving your image..." :: messages (host b))
    "🖼️ Preprocessing image to enhance text recognition..." = false ->
  exists (e : exn) (w1 : world),
    download_and_preprocess_image url (before_preprocessing (host b))
    = (Raise e, w1) /\
    prepare photo b
    = (if edit_refused (messages w1)
            "⚠️ Error in preprocessing, trying with original image..."
       then (Failed
               (TelegramError
                  "⚠️ Error in preprocessing, trying with original image..."),
             mkBot (add_errors [("Preprocessing error: " ++ str e)%string] w1)
               true (sent_photos b) (ocr_calls b) (debug_log b) (info_log b)
               (polls b) (slept b))
       else (Done (url, None),
             mkBot (after_fallback e w1) true (sent_photos b) (ocr_calls b)
               (debug_log b) (info_log b) (polls b) (slept b))).
Proof.
  intros -> Hfile Hreply Hedit.
  unfold prepare. cbn [bind B_monad].
  unfold reply_status. rewrite Hreply.
  rewrite item_last_app. unfold get_file. rewrite Hfile. cbn [ret B_monad].
  unfold status_edit_text at 1. cbn [bound negb host add_messages messages app].
  rewrite Hedit.
  unfold in_world at 1. cbn [host set_host]. rewrite ensure_output_dir_run.
  match goal with
  | |- context [try_b _ _ ?b1] => set (b0 := b1)
  end.
  assert (Hh : host b0 = before_preprocessing (host b)) by reflexivity.
  unfold try_b, in_world. rewrite Hh.
  destruct (download_raises url (before_preprocessing (host b)))
    as (e & w1 & Hrun).
  rewrite Hrun. exists e, w1. split; [reflexivity|].
  unfold log_error, status_edit_text. cbn -[append].
  destruct (edit_refused (messages w1) _); reflexivity.
Qed.

Lemma prepare_accepting (photo front : list string) (id url : string)
  (b : bot) :
  photo = front ++ [id] ->
  file_path id = Some url ->
  (forall (shown : list string) (s : string), reply_refused shown s = false) ->
  (forall (shown : list string) (s : string), edit_refused shown s = false) ->
  exists (e : exn) (w1 : world),
    download_and_preprocess_image url (before_preprocessing (host b))
    = (Raise e, w1) /\
    prepare photo b
    = (Done (url, None),
       mkBot (after_fallback e w1) true (sent_photos b) (ocr_calls b)
         (debug_log b) (info_log b) (polls b) (slept b)).
Proof.
  intros Hphoto Hfile Hreply Hedit.
  destruct (prepare_run photo front id url b Hphoto Hfile
              (Hreply _ _) (Hedit _ _)) as (e & w1 & Hrun & Hprep).
  exists e, w1. split; [exact Hrun|].
  rewrite Hprep, Hedit. reflexivity.
Qed.

Lemma operation_id_run (location : string) (b : bot) :
  operation_id_of location b = (Done (last_segment location), b).
Proof.
  unfold operation_id_of, last_segment.
  destruct (split_on_last "/" location) as (front & id & _ & Hsplit & _).
  rewrite Hsplit, last_last. apply item_last_app.
Qed.

Lemma collect_lines (page acc : list string) :
  fold_left (fun text_results line => text_results ++ [line]) page acc
  = acc ++ page.
Proof.
  revert acc; induction page as [|l page IH]; intros acc; cbn.
  - now rewrite app_nil_r.
  - rewrite IH, <- app_assoc. reflexivity.
Qed.

Lemma collect_pages (ps : list (list string)) (acc : list string) :
  fold_left
    (fun text_results text_result =>
       fold_left (fun text_results line => text_results ++ [line])
         text_result text_results) ps acc
  = acc ++ concat ps.
Proof.
  revert acc; induction ps as [|page ps IH]; intros acc; cbn.
  - now rewrite app_nil_r.
  - rewrite IH, collect_lines, <- app_assoc. reflexivity.
Qed.

Lemma text_results_concat (r : read_result) :
  text_results r = concat (pages r).
Proof. unfold text_results. apply (collect_pages (pages r) []). Qed.

(** What [report] does when the status message can be edited. *)
Lemma report_run (r : read_result) (b : bot) :
  bound b = true ->
  edit_refused (messages (host b)) (final_text r) = false ->
  exists b' : bot,
    report r b = (Done tt, b') /\
    messages (host b') = final_text r :: messages (host b) /\
    polls b' = polls b /\ slept b' = slept b /\
    ocr_calls b' = ocr_calls b /\ bound b' = true /\
    files (host b') = files (host b) /\ errors (host b') = errors (host b) /\
    info_log b'
    = (if String.eqb (status r) "succeeded" && negb (length (concat (pages r)) =? 0)%nat
       then "Successfully extracted text from image" :: info_log b
       else info_log b).
Proof.
  intros Hb. unfold report, final_text. rewrite text_results_concat.
  destruct (String.eqb (status r) "succeeded"); cbn [andb].
  - destruct (concat (pages r)) as [|l ls]; intros Hr.
    + unfold status_edit_text. fold text_no_text. rewrite Hb, Hr. cbn [negb].
      eexists; split; [reflexivity|]. cbn. rewrite Hb. repeat split.
    + cbn [bind B_monad]. unfold status_edit_text, log_info.
      rewrite Hb, Hr. cbn [negb].
      eexists; split; [reflexivity|]. cbn. rewrite Hb. repeat split.
  - intros Hr. unfold status_edit_text. fold text_not_processed.
    rewrite Hb, Hr. cbn [negb].
    eexists; split; [reflexivity|]. cbn. rewrite Hb. repeat split.
Qed.

Lemma recognize_accepting (k fuel : nat) (url location : string)
  (r : read_result) (b : bot) :
  bound b = true ->
  (forall (shown : list string) (s : string), edit_refused shown s = false) ->
  operation_location (read url) = Some location ->
  (forall i : nat, (i < k)%nat ->
     exists r' : read_result,
       read_answer (last_segment location) (polls b + i) = Some r' /\
       still_waiting r' = true) ->
  read_answer (last_segment location) (polls b + k) = Some r ->
  still_waiting r = false ->
  (k < fuel)%nat ->
  exists b' : bot,
    recognize fuel url None b = (Done tt, b') /\
    messages (host b')
    = final_text r :: waiting_texts 1 k
      ++ "🔎 Azure is analyzing the text..." :: messages (host b) /\
    ocr_calls b' = read url :: ocr_calls b /\
    polls b' = (polls b + k + 1)%nat /\ slept b' = (slept b + k)%nat /\
    files (host b') = files (host b) /\ errors (host b') = errors (host b).
Proof.
  intros Hb Hedit Hloc Hwait Hr Hfin Hfuel.
  unfold recognize. cbn [bind B_monad]. unfold azure_read. rewrite Hloc.
  rewrite operation_id_run. unfold status_edit_text at 1.
  cbn [bound host]. rewrite Hb, Hedit. cbn [negb].
  match goal with
  | |- context [poll fuel _ 1%nat ?b0] => set (b1 := b0)
  end.
  assert (Hb1 : bound b1 = true) by reflexivity.
  destruct (poll_run k fuel (last_segment location) 1 r b1 Hwait Hr Hfin Hfuel)
    as (b2 & Hpoll & Hp & Hs & Hk).
  pose proof (poll_texts k fuel (last_segment location) 1 r b1 Hb1 Hedit
                Hwait Hr Hfin Hfuel) as Hm.
  rewrite Hpoll in Hm |- *. cbn [snd] in Hm.
  unfold kept_by_polling in Hk.
  injection Hk as Hkb Hkp Hko Hki Hkn Hkd Hkf Hke.
  destruct (report_run r b2 ltac:(congruence) (Hedit _ _))
    as (b3 & Hrep & Hm3 & Hp3 & Hs3 & Ho3 & _ & Hf3 & He3 & _).
  rewrite Hrep. exists b3. split; [reflexivity|].
  rewrite Hm3, Hm, Ho3, Hko, Hp3, Hp, Hs3, Hs, Hf3, Hkf, He3, Hke.
  repeat split.
Qed.

(** X19. A photograph whose text is found: with a Telegram that takes every
    text and an operation that is running for [k] polls and then finished,
    [handle_photo] asks the OCR service once, to read the address of the
    largest size of the photograph; the user sees the three texts of the
    preprocessing, the text that Azure is analyzing, [k] waiting texts and
    the result; the handler has polled [k + 1] times and slept [k]
    seconds. *)
Theorem photo_is_answered (k fuel : nat) (photo front : list string)
  (id url location : string) (r : read_result) (b : bot) :
  photo = front ++ [id] ->
  file_path id = Some url ->
  (forall (shown : list string) (s : string), reply_refused shown s = false) ->
  (forall (shown : list string) (s : string), edit_refused shown s = false) ->
  operation_location (read url) = Some location ->
  (forall i : nat, (i < k)%nat ->
     exists r' : read_result,
       read_answer (last_segment location) (polls b + i) = Some r' /\
       still_waiting r' = true) ->
  read_answer (last_segment location) (polls b + k) = Some r ->
  still_waiting r = false ->
  (k < fuel)%nat ->
  exists b' : bot,
    handle_photo_cv fuel photo b = (Done tt, b') /\
    messages (host b')
    = final_text r
      :: rev (map (fun i => waiting_message ((1 + i) mod 3 + 1)) (seq 0 k))
      ++ ["🔎 Azure is analyzing the text...";
          "⚠️ Error in preprocessing, trying with original image...";
          "🖼️ Preprocessing image to enhance text recognition...";
          "🔍 Receiving your image..."] ++ messages (host b) /\
    ocr_calls b' = read url :: ocr_calls b /\
    polls b' = (polls b + k + 1)%nat /\ slept b' = (slept b + k)%nat /\
    files (host b')
    = files (snd (download_and_preprocess_image url
                    (before_preprocessing (host b)))).
Proof.
  intros Hphoto Hfile Hreply Hedit Hloc Hwait Hr Hfin Hfuel.
  rewrite handle_photo_cv_parts. unfold try_b. cbn [bind B_monad].
  destruct (prepare_accepting photo front id url b Hphoto Hfile Hreply Hedit)
    as (e & w1 & Hdown & Hprep).
  rewrite Hprep. cbn [fst snd].
  destruct (recognize_accepting k fuel url location r
              (mkBot (after_fallback e w1) true (sent_photos b)
                 (ocr_calls b) (debug_log b) (info_log b) (polls b) (slept b))
              eq_refl Hedit Hloc Hwait Hr Hfin Hfuel)
    as (b' & Hrun & Hm & Ho & Hp & Hs & Hf & _).
  rewrite Hrun. exists b'. split; [reflexivity|].
  cbn [host ocr_calls polls slept] in Hm, Ho, Hp, Hs, Hf.
  destruct (download_shown url (host b) w1 e Hdown) as [Hm1 _].
  rewrite Hm, Hf, Hdown.
  unfold after_fallback, add_messages, add_errors.
  cbn [messages files snd app]. rewrite Hm1.
  repeat split; assumption.
Qed.

(** X20. When the OCR service does not take the request, [handle_photo] does
    not poll: the failure is logged after the preprocessing error and the
    user is shown the error text. *)
Theorem ocr_failure_is_reported (fuel : nat) (photo front : list string)
  (id url : string) (b : bot) :
  photo = front ++ [id] ->
  file_path id = Some url ->
  (forall (shown : list string) (s : string), reply_refused shown s = false) ->
  (forall (shown : list string) (s : string), edit_refused shown s = false) ->
  operation_location (read url) = None ->
  exists b' : bot,
    handle_photo_cv fuel photo b = (Done tt, b') /\
    messages (host b')
    = [text_error;
       "⚠️ Error in preprocessing, trying with original image...";
       "🖼️ Preprocessing image to enhance text recognition...";
       "🔍 Receiving your image..."] ++ messages (host b) /\
    ocr_calls b' = read url :: ocr_calls b /\
    polls b' = polls b /\ slept b' = slept b /\
    exists e : exn,
      errors (host b')
      = ["Error processing image: the OCR service failed";
         ("Preprocessing error: " ++ str e)%string] ++ errors (host b).
Proof.
  intros Hphoto Hfile Hreply Hedit Hloc.
  rewrite handle_photo_cv_parts. unfold try_b. cbn [bind B_monad].
  destruct (prepare_accepting photo front id url b Hphoto Hfile Hreply Hedit)
    as (e & w1 & Hdown & Hprep).
  rewrite Hprep.
  cbn [fst snd]. unfold recognize. cbn [bind B_monad].
  unfold azure_read. rewrite Hloc. rewrite on_error_run. cbv zeta.
  cbn [bound host andb]. rewrite Hedit. cbn [negb].
  eexists. split; [reflexivity|].
  destruct (download_shown url (host b) w1 e Hdown) as [Hm He].
  unfold after_fallback.
  cbn [host set_host add_messages add_errors messages errors ocr_calls polls
       slept app].
  rewrite Hm, He.
  repeat split. exists e. reflexivity.
Qed.

(** X23. A message without any photo size.  The OCR bot takes the [IndexError]
    of [photo[-1]] like any other failure: it is logged and the user is
    shown the error text, nothing is fetched or written, and the OCR
    service is not asked.  In the echo bot [photo[-1]] stands before the
    [try]: the [IndexError] leaves the handler and nothing is sent. *)
Theorem empty_photo_list (fuel : nat) (b : bot) :
  reply_refused (messages (host b)) "🔍 Receiving your image..." = false ->
  edit_refused ("🔍 Receiving your image..." :: messages (host b)) text_error
  = false ->
  (exists b' : bot,
      handle_photo_cv fuel [] b = (Done tt, b') /\
      messages (host b')
      = [text_error; "🔍 Receiving your image..."] ++ messages (host b) /\
      errors (host b')
      = "Error processing image: list index out of range" :: errors (host b) /\
      files (host b') = files (host b) /\ dirs (host b') = dirs (host b) /\
      ocr_calls b' = ocr_calls b /\ polls b' = polls b) /\
  handle_photo_echo [] b = (Failed IndexError, b).
Proof.
  intros Hreply Hedit. split; [|reflexivity].
  rewrite handle_photo_cv_parts. unfold try_b, prepare. cbn [bind B_monad].
  unfold reply_status. rewrite Hreply.
  unfold item_last. cbn [rev fail].
  rewrite on_error_run. cbv zeta. cbn -[append text_error].
  rewrite Hedit. cbn [negb].
  eexists. split; [reflexivity|]. cbn -[text_error]. repeat split.
Qed.

(** X24. The echo bot answers a photograph with its largest size, the last of
    the list, and the caption; when Telegram refuses the photograph the
    error is logged and the user gets the apology instead; only when that
    reply is refused too does the exception leave the handler.  In no case
    are both a photograph and an apology sent. *)
Theorem echo_sends_largest_or_apologises (front : list string) (id : string)
  (b : bot) :
  (photo_refused (messages (host b)) id = false ->
   exists b' : bot,
     handle_photo_echo (front ++ [id]) b = (Done tt, b') /\
     sent_photos b' = (id, "Here's your image back! 📸") :: sent_photos b /\
     messages (host b') = messages (host b) /\
     errors (host b') = errors (host b)) /\
  (photo_refused (messages (host b)) id = true ->
   reply_refused (messages (host b)) "Sorry, I couldn't process your image!"
   = false ->
   exists b' : bot,
     handle_photo_echo (front ++ [id]) b = (Done tt, b') /\
     sent_photos b' = sent_photos b /\
     messages (host b')
     = "Sorry, I couldn't process your image!" :: messages (host b) /\
     length (errors (host b')) = S (length (errors (host b)))) /\
  (photo_refused (messages (host b)) id = true ->
   reply_refused (messages (host b)) "Sorry, I couldn't process your image!"
   = true ->
   exists b' : bot,
     handle_photo_echo (front ++ [id]) b
     = (Failed (TelegramError "Sorry, I couldn't process your image!"), b') /\
     sent_photos b' = sent_photos b /\
     messages (host b') = messages (host b)).
Proof.
  unfold handle_photo_echo. cbn [bind B_monad].
  rewrite item_last_app. unfold log_info at 1.
  unfold try_b, reply_photo, reply_text, log_error, log_info.
  cbn -[append].
  destruct (photo_refused (messages (host b)) id); cbn -[append].
  - split; [discriminate|].
    destruct (reply_refused (messages (host b))
                "Sorry, I couldn't process your image!"); split;
      intros _; try discriminate; intros _;
      eexists; (split; [reflexivity|]); cbn; repeat split.
  - split; [|split; discriminate].
    intros _. eexists. split; [reflexivity|]. cbn. repeat split.
Qed.

(** *** What the handler leaves alone *)

Lemma keeps_ret {A X : Type} (proj : bot -> X) (a : A) : keeps proj (ret a).
Proof. intros b. reflexivity. Qed.

Lemma keeps_bind {A C X : Type} (proj : bot -> X) (c : B A) (k : A -> B C) :
  keeps proj c -> (forall a, keeps proj (k a)) -> keeps proj (bind c k).
Proof.
  intros Hc Hk b. cbn [bind B_monad]. specialize (Hc b).
  destruct (c b) as [[a|e|] b1]; cbn [snd] in *; [|exact Hc|exact Hc].
  rewrite (Hk a b1). exact Hc.
Qed.

Lemma keeps_try {A X : Type} (proj : bot -> X) (c : B A) (h : bot_exn -> B A) :
  keeps proj c -> (forall e, keeps proj (h e)) -> keeps proj (try_b c h).
Proof.
  intros Hc Hh b. unfold try_b. specialize (Hc b).
  destruct (c b) as [[a|e|] b1]; cbn [snd] in *; [exact Hc| |exact Hc].
  rewrite (Hh e b1). exact Hc.
Qed.

Lemma keeps_fail {A X : Type} (proj : bot -> X) (e : bot_exn) :
  keeps proj (@fail A e).
Proof. intros b. reflexivity. Qed.

Lemma keeps_item_last {A X : Type} (proj : bot -> X) (l : list A) :
  keeps proj (item_last l).
Proof. intros b. unfold item_last. destruct (rev l); reflexivity. Qed.

Lemma keeps_reply_status (s : string) : keeps calls_and_photos (reply_status s).
Proof. intros b. unfold reply_status. destruct (reply_refused _ _); reflexivity. Qed.

Lemma keeps_reply_text (s : string) : keeps calls_and_photos (reply_text s).
Proof. intros b. unfold reply_text. destruct (reply_refused _ _); reflexivity. Qed.

Lemma keeps_status_edit_text (s : string) :
  keeps calls_and_photos (status_edit_text s).
Proof.
  intros b. unfold status_edit_text.
  destruct (negb (bound b)); [reflexivity|].
  destruct (edit_refused _ _); reflexivity.
Qed.

Lemma keeps_get_file (id : string) : keeps calls_and_photos (get_file id).
Proof. intros b. unfold get_file. destruct (file_path id); reflexivity. Qed.

Lemma keeps_in_world {A : Type} (m : M A) : keeps calls_and_photos (in_world m).
Proof.
  intros b. unfold in_world. destruct (m (host b)) as [[a|e] w]; reflexivity.
Qed.

Lemma keeps_log_error (s : string) : keeps calls_and_photos (log_error s).
Proof. intros b. reflexivity. Qed.

Lemma keeps_log_debug (s : string) : keeps calls_and_photos (log_debug s).
Proof. intros b. reflexivity. Qed.

Lemma keeps_log_info (s : string) : keeps calls_and_photos (log_info s).
Proof. intros b. reflexivity. Qed.

Lemma keeps_time_sleep (n : nat) : keeps calls_and_photos (time_sleep n).
Proof. intros b. reflexivity. Qed.

Lemma keeps_get_read_result (op : string) :
  keeps calls_and_photos (get_read_result op).
Proof.
  intros b. unfold get_read_result. destruct (read_answer op (polls b)); reflexivity.
Qed.

Lemma keeps_operation_id_of (location : string) :
  keeps calls_and_photos (operation_id_of location).
Proof. intros b. rewrite operation_id_run. reflexivity. Qed.

Ltac keeps_steps :=
  repeat first
    [ apply keeps_bind; [|intros ?]
    | apply keeps_try; [|intros ?]
    | apply keeps_ret
    | apply keeps_fail
    | apply keeps_item_last
    | apply keeps_reply_status
    | apply keeps_reply_text
    | apply keeps_status_edit_text
    | apply keeps_get_file
    | apply keeps_in_world
    | apply keeps_log_error
    | apply keeps_log_debug
    | apply keeps_log_info
    | apply keeps_time_sleep
    | apply keeps_get_read_result
    | apply keeps_operation_id_of ].

Lemma keeps_poll (fuel : nat) (op : string) (dots : nat) :
  keeps calls_and_photos (poll fuel op dots).
Proof.
  revert dots. induction fuel as [|fuel IH]; intros dots.
  - intros b. reflexivity.
  - cbn [poll]. keeps_steps.
    destruct (negb (mem_string (status a) ["notStarted"; "running"])).
    + apply keeps_ret.
    + keeps_steps. apply IH.
Qed.

Lemma keeps_report (r : read_result) : keeps calls_and_photos (report r).
Proof.
  unfold report. destruct (String.eqb (status r) "succeeded").
  - destruct (text_results r); keeps_steps.
  - keeps_steps.
Qed.

Lemma keeps_on_error (e : bot_exn) : keeps calls_and_photos (on_error e).
Proof. unfold on_error. keeps_steps. Qed.

Lemma keeps_prepare (photo : list string) :
  keeps calls_and_photos (prepare photo).
Proof. unfold prepare. keeps_steps. Qed.

Lemma recognize_calls (fuel : nat) (url : string)
  (processed_image : option (list Byte.byte)) (b : bot) :
  calls_and_photos (snd (recognize fuel url processed_image b))
  = (match processed_image with
     | Some image => read_in_stream image
     | None => read url
     end :: ocr_calls b, sent_photos b).
Proof.
  unfold recognize.
  set (call := match processed_image with
               | Some image => read_in_stream image
               | None => read url
               end).
  assert (Hcall : match processed_image with
                  | Some image => azure_read (read_in_stream image)
                  | None => azure_read (read url)
                  end = azure_read call)
    by (destruct processed_image; reflexivity).
  rewrite Hcall.
  assert (Hk : forall location : string,
             keeps calls_and_photos
               (operation_id <- operation_id_of location ;;
                status_edit_text "🔎 Azure is analyzing the text..." ;;
                read_result <- poll fuel operation_id 1 ;;
                report read_result)).
  { intros location. keeps_steps; [apply keeps_poll | apply keeps_report]. }
  cbn [bind B_monad] in Hk |- *. unfold azure_read.
  destruct (operation_location call) as [location|]; [|reflexivity].
  exact (Hk location
           (mkBot (host b) (bound b) (sent_photos b) (call :: ocr_calls b)
              (debug_log b) (info_log b) (polls b) (slept b))).
Qed.

(** The statements before the OCR call never end with a processed image,
    and they end normally only for a photograph whose largest size has a
    file path. *)
Lemma prepare_done (photo : list string) (url : string)
  (processed_image : option (list Byte.byte)) (b b1 : bot) :
  prepare photo b = (Done (url, processed_image), b1) ->
  processed_image = None /\
  exists (front : list string) (id : string),
    photo = front ++ [id] /\ file_path id = Some url.
Proof.
  unfold prepare. cbn [bind B_monad].
  destruct (reply_status _ b) as [[[]|e|] b2]; try discriminate.
  destruct (item_last_cases photo b2) as [[_ Hl] | (front & id & Hphoto & Hl)];
    rewrite Hl; [discriminate|].
  unfold get_file. destruct (file_path id) as [u|] eqn:Hfile; [|discriminate].
  cbn [ret B_monad].
  destruct (status_edit_text _ b2) as [[[]|e|] b3]; try discriminate.
  destruct (in_world ensure_output_dir b3) as [[dir|e|] b4]; try discriminate.
  unfold try_b at 1, in_world at 1.
  destruct (download_raises u (host b4)) as (e & w1 & Hrun). rewrite Hrun.
  destruct (log_error _ _) as [[[]|e'|] b5]; try discriminate.
  destruct (status_edit_text _ b5) as [[[]|e'|] b6]; try discriminate.
  intros [= <- <- <-]. split; [reflexivity|].
  exists front, id. split; assumption.
Qed.


(** X6. The statements of [handle_photo] before the call of the OCR service,
    whatever Telegram does: [handle_photo] is these statements, the rest of
    its [try] block and its outer handler.  They show at most three texts,
    in order, and never the text that announces the enhanced image; they
    log at most one error, that of the preprocessing; and whenever they end
    normally it is with no processed image, after the three texts and the
    one error. *)
Theorem image_enhanced_is_never_announced (fuel : nat) (photo : list string)
  (b : bot) :
  handle_photo_cv fuel photo b
  = try_b (p <- prepare photo ;; recognize fuel (fst p) (snd p)) on_error b /\
  (exists new : list string,
      messages (host (snd (prepare photo b))) = new ++ messages (host b) /\
      (new = [] \/
       new = ["🔍 Receiving your image..."] \/
       new = ["🖼️ Preprocessing image to enhance text recognition...";
              "🔍 Receiving your image..."] \/
       new = ["⚠️ Error in preprocessing, trying with original image...";
              "🖼️ Preprocessing image to enhance text recognition...";
              "🔍 Receiving your image..."])) /\
  (errors (host (snd (prepare photo b))) = errors (host b) \/
   exists e : exn,
     errors (host (snd (prepare photo b)))
     = ("Preprocessing error: " ++ str e)%string :: errors (host b)) /\
  (forall (url : string) (processed_image : option (list Byte.byte)),
      fst (prepare photo b) = Done (url, processed_image) ->
      processed_image = None /\
      messages (host (snd (prepare photo b)))
      = ["⚠️ Error in preprocessing, trying with original image...";
         "🖼️ Preprocessing image to enhance text recognition...";
         "🔍 Receiving your image..."] ++ messages (host b) /\
      exists e : exn,
        errors (host (snd (prepare photo b)))
        = ("Preprocessing error: " ++ str e)%string :: errors (host b)).
Proof.
  split; [apply handle_photo_cv_parts|].
  destruct (reply_refused (messages (host b)) "🔍 Receiving your image...")
    eqn:Hreply.
  { assert (Hprep : prepare photo b
                    = (Failed (TelegramError "🔍 Receiving your image..."), b)).
    { unfold prepare. cbn [bind B_monad]. unfold reply_status.
      rewrite Hreply. reflexivity. }
    rewrite Hprep. cbn [fst snd]. split; [|split].
    - exists []. auto.
    - left; reflexivity.
    - discriminate. }
  destruct (item_last_cases photo
              (mkBot (add_messages ["🔍 Receiving your image..."] (host b))
                 true (sent_photos b) (ocr_calls b) (debug_log b) (info_log b)
                 (polls b) (slept b)))
    as [[_ Hlast] | (front & id & Hphoto & Hlast)].
  { assert (Hprep : prepare photo b
                    = (Failed IndexError,
                       mkBot (add_messages ["🔍 Receiving your image..."] (host b))
                         true (sent_photos b) (ocr_calls b) (debug_log b)
                         (info_log b) (polls b) (slept b))).
    { unfold prepare. cbn [bind B_monad]. unfold reply_status.
      rewrite Hreply, Hlast. reflexivity. }
    rewrite Hprep. cbn [fst snd host messages errors add_messages].
    split; [|split].
    - exists ["🔍 Receiving your image..."]. auto.
    - left; reflexivity.
    - discriminate. }
  destruct (file_path id) as [url|] eqn:Hfile.
  2: { assert (Hprep : prepare photo b
                    = (Failed (TelegramError id),
                       mkBot (add_messages ["🔍 Receiving your image..."] (host b))
                         true (sent_photos b) (ocr_calls b) (debug_log b)
                         (info_log b) (polls b) (slept b))).
    { unfold prepare. cbn [bind B_monad]. unfold reply_status.
      rewrite Hreply, Hlast. unfold get_file. rewrite Hfile.
      reflexivity. }
    rewrite Hprep. cbn [fst snd host messages errors add_messages].
    split; [|split].
    - exists ["🔍 Receiving your image..."]. auto.
    - left; reflexivity.
    - discriminate. }
  destruct (edit_refused ("🔍 Receiving your image..." :: messages (host b))
              "🖼️ Preprocessing image to enhance text recognition...")
    eqn:Hedit.
  { assert (Hprep : prepare photo b
                    = (Failed (TelegramError "🖼️ Preprocessing image to enhance text recognition..."),
                       mkBot (add_messages ["🔍 Receiving your image..."] (host b))
                         true (sent_photos b) (ocr_calls b) (debug_log b)
                         (info_log b) (polls b) (slept b))).
    { unfold prepare. cbn [bind B_monad]. unfold reply_status.
      rewrite Hreply, Hlast. unfold get_file. rewrite Hfile.
      cbn [ret B_monad]. unfold status_edit_text at 1.
      cbn [bound negb host add_messages messages app]. rewrite Hedit.
      reflexivity. }
    rewrite Hprep. cbn [fst snd host messages errors add_messages].
    split; [|split].
    - exists ["🔍 Receiving your image..."]. auto.
    - left; reflexivity.
    - discriminate. }
  destruct (prepare_run photo front id url b Hphoto Hfile Hreply Hedit)
    as (e & w1 & Hrun & Hprep).
  destruct (download_shown url (host b) w1 e Hrun) as [Hm He].
  rewrite Hprep.
  destruct (edit_refused (messages w1) _); cbn [fst snd host];
    unfold after_fallback, add_messages, add_errors;
    cbn [messages errors app]; rewrite Hm, He; cbn [app].
  - split; [|split].
    + exists ["🖼️ Preprocessing image to enhance text recognition...";
              "🔍 Receiving your image..."]. auto.
    + right. exists e. reflexivity.
    + discriminate.
  - split; [|split].
    + exists ["⚠️ Error in preprocessing, trying with original image...";
              "🖼️ Preprocessing image to enhance text recognition...";
              "🔍 Receiving your image..."]. auto 6.
    + right. exists e. reflexivity.
    + intros url' pi [= <- <-]. split; [reflexivity|].
      split; [reflexivity|]. exists e. reflexivity.
Qed.

(** X21. [handle_photo] of the OCR bot asks the OCR service at most once, and
    only to read the address of the largest size of the photograph: the
    processed image is never submitted.  It sends no photograph. *)
Theorem ocr_is_asked_once_for_the_address (fuel : nat) (photo : list string)
  (b : bot) :
  sent_photos (snd (handle_photo_cv fuel photo b)) = sent_photos b /\
  (ocr_calls (snd (handle_photo_cv fuel photo b)) = ocr_calls b \/
   exists (front : list string) (id url : string),
     photo = front ++ [id] /\ file_path id = Some url /\
     ocr_calls (snd (handle_photo_cv fuel photo b)) = read url :: ocr_calls b).
Proof.
  rewrite handle_photo_cv_parts. unfold try_b. cbn [bind B_monad].
  pose proof (keeps_prepare photo b) as Hprep.
  destruct (prepare photo b) as [[[url pi]|e|] b1] eqn:Hrun; cbn [snd] in Hprep.
  - destruct (prepare_done photo url pi b b1 Hrun)
      as (-> & front & id & Hphoto & Hfile).
    cbn [fst snd].
    pose proof (recognize_calls fuel url None b1) as Hrec.
    assert (Hfinal :
              calls_and_photos
                (snd (let (o, b') := recognize fuel url None b1 in
                      match o with
                      | Done a => (Done a, b')
                      | Failed e => on_error e b'
                      | Running => (Running, b')
                      end))
              = (read url :: ocr_calls b, sent_photos b)).
    { destruct (recognize fuel url None b1) as [[[]|e|] b2]; cbn [snd] in *.
      - rewrite Hrec. injection Hprep as -> ->. reflexivity.
      - rewrite (keeps_on_error e b2), Hrec.
        injection Hprep as -> ->. reflexivity.
      - rewrite Hrec. injection Hprep as -> ->. reflexivity. }
    injection Hfinal as Hc Hp. split; [exact Hp|].
    right. exists front, id, url. auto.
  - pose proof (keeps_on_error e b1) as Herr. rewrite Hprep in Herr.
    injection Herr as Hc Hp. split; [exact Hp | left; exact Hc].
  - cbn [snd]. injection Hprep as Hc Hp. split; [exact Hp | left; exact Hc].
Qed.

(** X18. The end of [handle_photo]: the lines of all pages, in order, joined by
    newlines, are shown when the operation has succeeded and has at least
    one line, be it an empty one; a result without lines, that is with
    pages that are all empty, gives the text that no text was found; any
    other final status gives the text that the image could not be
    processed.  Only the first case is logged as a success. *)
Theorem report_shows_text_or_reason (r : read_result) (b : bot) :
  bound b = true ->
  (forall s : string, edit_refused (messages (host b)) s = false) ->
  exists b' : bot,
    report r b = (Done tt, b') /\
    text_results r = concat (pages r) /\
    (concat (pages r) = [] <-> Forall (fun page => page = []) (pages r)) /\
    ((status r = "succeeded" /\ concat (pages r) <> [] /\
      messages (host b')
      = ("✨ Here's the extracted text:" ++ nl ++ nl
         ++ join nl (concat (pages r)))%string :: messages (host b) /\
      info_log b' = "Successfully extracted text from image" :: info_log b)
     \/
     (status r = "succeeded" /\ concat (pages r) = [] /\
      messages (host b') = text_no_text :: messages (host b) /\
      info_log b' = info_log b)
     \/
     (status r <> "succeeded" /\
      messages (host b') = text_not_processed :: messages (host b) /\
      info_log b' = info_log b)).
Proof.
  intros Hb Hedit.
  destruct (report_run r b Hb (Hedit _))
    as (b' & Hrun & Hm & _ & _ & _ & _ & _ & _ & Hi).
  exists b'. split; [exact Hrun|].
  split; [apply text_results_concat|].
  split; [apply concat_nil_Forall|].
  unfold final_text in Hm.
  destruct (String.eqb (status r) "succeeded") eqn:E.
  - apply String.eqb_eq in E.
    destruct (concat (pages r)) as [|l ls] eqn:Hc.
    + right; left. cbn in Hi. auto.
    + left. cbn in Hi. repeat split; try assumption. discriminate.
  - apply String.eqb_neq in E. right; right. cbn in Hi. auto.
Qed.

End Handlers.

(** ** Conversations with the sample services *)

Example sample_conversation :
  let b' := snd (handle_photo_cv (cv := sample_cv []) (sv := sample_services)
                   5 ["photo-small"; "photo-large"] (new_bot sample_world)) in
  messages (host b')
  = [("✨ Here's the extracted text:" ++ nl ++ nl
      ++ "Hello" ++ nl ++ "world" ++ nl ++ "42")%string;
     "🔎 Analyzing your image...";
     "🔎 Analyzing your image..";
     "🔎 Azure is analyzing the text...";
     "⚠️ Error in preprocessing, trying with original image...";
     "🖼️ Preprocessing image to enhance text recognition...";
     "🔍 Receiving your image..."] /\
  ocr_calls b' = [read photo_url] /\ polls b' = 3%nat /\ slept b' = 2%nat.
Proof. repeat split; reflexivity. Qed.

(** A result whose only line is empty is shown as extracted text. *)
Example empty_line_is_text :
  final_text (mkReadResult "succeeded" [[EmptyString]])
  = ("✨ Here's the extracted text:" ++ nl ++ nl)%string /\
  final_text (mkReadResult "succeeded" [[]; []]) = text_no_text /\
  final_text (mkReadResult "failed" [["x"]]) = text_not_processed.
Proof. repeat split; reflexivity. Qed.

Lemma sample_waits (i : nat) :
  (i < 2)%nat ->
  exists r' : read_result,
    read_answer (Services := sample_services) "op-1" (0 + i) = Some r' /\
    still_waiting r' = true.
Proof.
  intros Hi. destruct i as [|[|i]]; [| |lia];
    (eexists; split; reflexivity).
Qed.

Lemma poll_ends_at_first_final_answer_witness :
  fst (poll (sv := sample_services) 5 "op-1" 1 (new_bot sample_world))
  = Done (mkReadResult "succeeded" [["Hello"; "world"]; []; ["42"]]).
Proof.
  destruct (poll_ends_at_first_final_answer (sv := sample_services)
              2 5 "op-1" 1
              (mkReadResult "succeeded" [["Hello"; "world"]; []; ["42"]])
              (new_bot sample_world) sample_waits eq_refl eq_refl
              ltac:(repeat constructor))
    as (b' & Hrun & _).
  rewrite Hrun. reflexivity.
Defined.

Lemma poll_never_gives_up_witness :
  fst (poll (sv := stalled_services) 7 "op-1" 1 (new_bot sample_world))
  = Running.
Proof.
  apply (proj1 (poll_never_gives_up (sv := stalled_services) 7 "op-1" 1
                  (new_bot sample_world)
                  (fun n => ex_intro _ (mkReadResult "running" [])
                              (conj eq_refl eq_refl)))).
Defined.

Lemma polling_shows_cycling_dots_witness :
  messages
    (host (snd (poll (sv := sample_services) 5 "op-1" 1
                  (mkBot sample_world true [] [] [] [] 0 0))))
  = ["🔎 Analyzing your image..."; "🔎 Analyzing your image.."].
Proof.
  apply (proj1 (polling_shows_cycling_dots (sv := sample_services)
                  2 5 "op-1" 1
                  (mkReadResult "succeeded" [["Hello"; "world"]; []; ["42"]])
                  (mkBot sample_world true [] [] [] [] 0 0)
                  eq_refl (fun _ _ => eq_refl) sample_waits eq_refl eq_refl
                  ltac:(repeat constructor))).
Defined.

Lemma handle_photo_cv_fails_only_on_refused_reply_witness :
  reply_refused (Services := silent_services)
    (messages sample_world) text_error = true.
Proof.
  refine (proj1 (proj2
    (handle_photo_cv_fails_only_on_refused_reply
       (cv := sample_cv []) (sv := silent_services)
       3 ["photo-large"] (new_bot sample_world) _ _ eq_refl))).
Defined.

Lemma photo_is_answered_witness :
  fst (handle_photo_cv (cv := sample_cv []) (sv := sample_services)
         5 ["photo-small"; "photo-large"] (new_bot sample_world))
  = Done tt.
Proof.
  destruct (photo_is_answered (cv := sample_cv []) (sv := sample_services)
              2 5 ["photo-small"; "photo-large"] ["photo-small"]
              "photo-large" photo_url sample_location
              (mkReadResult "succeeded" [["Hello"; "world"]; []; ["42"]])
              (new_bot sample_world)
              eq_refl eq_refl (fun _ _ => eq_refl) (fun _ _ => eq_refl)
              eq_refl sample_waits eq_refl eq_refl ltac:(repeat constructor))
    as (b' & Hrun & _).
  rewrite Hrun. reflexivity.
Defined.

Lemma ocr_failure_is_reported_witness :
  fst (handle_photo_cv (cv := sample_cv []) (sv := offline_services)
         5 ["photo-large"] (new_bot sample_world))
  = Done tt.
Proof.
  destruct (ocr_failure_is_reported (cv := sample_cv []) (sv := offline_services)
              5 ["photo-large"] [] "photo-large" photo_url
              (new_bot sample_world)
              eq_refl eq_refl (fun _ _ => eq_refl) (fun _ _ => eq_refl) eq_refl)
    as (b' & Hrun & _).
  rewrite Hrun. reflexivity.
Defined.

Lemma empty_photo_list_witness :
  handle_photo_echo (sv := sample_services) [] (new_bot sample_world)
  = (Failed IndexError, new_bot sample_world).
Proof.
  apply (proj2 (empty_photo_list (cv := sample_cv []) (sv := sample_services)
                  5 (new_bot sample_world) eq_refl eq_refl)).
Defined.

Lemma echo_sends_largest_or_apologises_witness :
  exists b' : bot,
    handle_photo_echo (sv := strict_services) (["photo-small"] ++ ["photo-large"])
      (new_bot sample_world) = (Done tt, b') /\
    sent_photos b' = [] /\
    messages (host b') = ["Sorry, I couldn't process your image!"] /\
    length (errors (host b')) = 1%nat.
Proof.
  apply (proj1 (proj2 (echo_sends_largest_or_apologises (sv := strict_services)
                         ["photo-small"] "photo-large" (new_bot sample_world)))
           eq_refl eq_refl).
Defined.

Lemma report_shows_text_or_reason_witness :
  fst (report (sv := sample_services)
         (mkReadResult "succeeded" [["Hello"; "world"]; []; ["42"]])
         (mkBot sample_world true [] [] [] [] 0 0))
  = Done tt.
Proof.
  destruct (report_shows_text_or_reason (sv := sample_services)
              (mkReadResult "succeeded" [["Hello"; "world"]; []; ["42"]])
              (mkBot sample_world true [] [] [] [] 0 0)
              eq_refl (fun _ => eq_refl))
    as (b' & Hrun & _).
  rewrite Hrun. reflexivity.
Defined.



Lemma image_enhanced_is_never_announced_witness :
  messages (host (snd (prepare (cv := sample_cv []) (sv := sample_services)
                         ["photo-small"; "photo-large"]
                         (new_bot sample_world))))
  = ["⚠️ Error in preprocessing, trying with original image...";
     "🖼️ Preprocessing image to enhance text recognition...";
     "🔍 Receiving your image..."].
Proof.
  destruct (image_enhanced_is_never_announced
              (cv := sample_cv []) (sv := sample_services)
              5 ["photo-small"; "photo-large"] (new_bot sample_world))
    as (_ & _ & _ & Hdone).
  exact (proj1 (proj2 (Hdone photo_url None eq_refl))).
Defined.
